(** * quest-gen: the question generator command

    A shallow embedding of [source/commands/quest-gen.ts] and the
    properties of its ingestion, caching and generation loop.

    - JavaScript strings are sequences of UTF-16 code units; they are
      modelled as lists of [N].  Buffers are lists of bytes, also [N].
    - The library functions the command calls ([trim], [split], [replace],
      [JSON.stringify], [JSON.parse], [Buffer.from], [toString], MD5) are
      written out after their specifications.
    - What comes from outside is a parameter: the completion service, the
      document loader, the files that [glob] and [fs.stat] find, [os.tmpdir]
      and [path.resolve].
    - Asynchronous code is written in state-passing style; the order in
      which the completion calls return is an argument of [execute].
    - Of the spinner only the closing line is kept. *)

From Stdlib Require Import NArith ZArith Lia List Bool Ascii String.
From Stdlib Require DecimalFacts DecimalPos DecimalN.
From Stdlib Require Import Permutation.
From stdpp Require Import base list gmap.
Import ListNotations.

Local Open Scope N_scope.
Local Open Scope list_scope.

(** ** JavaScript strings *)

Module JsString.

Definition jsstring : Type := list N.

(** A string literal of the source, read as Latin-1 code units. *)
Fixpoint js (s : string) : jsstring :=
  match s with
  | EmptyString => []
  | String a t => N_of_ascii a :: js t
  end.

Definition nl : N := 10.
Definition dquote : N := 34.
Definition dollar : N := 36.

(** [WhiteSpace] and [LineTerminator] of ECMAScript: what [String.prototype.trim]
    removes and what the regular expression class [\s] matches. *)
Definition is_ws (c : N) : bool :=
  (c =? 9) || (c =? 10) || (c =? 11) || (c =? 12) || (c =? 13) || (c =? 32)
  || (c =? 160) || (c =? 5760) || ((8192 <=? c) && (c <=? 8202))
  || (c =? 8232) || (c =? 8233) || (c =? 8239) || (c =? 8287)
  || (c =? 12288) || (c =? 65279).

(** The regular expression class [\d]. *)
Definition is_digit (c : N) : bool := (48 <=? c) && (c <=? 57).

Fixpoint dropWhile (p : N -> bool) (s : jsstring) : jsstring :=
  match s with
  | [] => []
  | c :: t => if p c then dropWhile p t else s
  end.

Fixpoint takeWhile (p : N -> bool) (s : jsstring) : jsstring :=
  match s with
  | [] => []
  | c :: t => if p c then c :: takeWhile p t else []
  end.

(** [s.trim()] *)
Definition trim (s : jsstring) : jsstring :=
  List.rev (dropWhile is_ws (List.rev (dropWhile is_ws s))).

(** [s.split(sep)] for a separator of one code unit; the result of splitting
    the empty string is the one empty segment. *)
Fixpoint split (sep : N) (s : jsstring) : list jsstring :=
  match s with
  | [] => [[]]
  | c :: t =>
      if c =? sep then [] :: split sep t
      else match split sep t with
           | seg :: segs => (c :: seg) :: segs
           | [] => [[c]]
           end
  end.

(** [s.replace(/\n{2,}/g, "\n")]: of every maximal run of newlines only the
    last one is kept; a newline that stands alone is a run of one and stays. *)
Fixpoint collapseNewlines (s : jsstring) : jsstring :=
  match s with
  | [] => []
  | a :: t =>
      match t with
      | b :: _ => if (a =? nl) && (b =? nl) then collapseNewlines t
                  else a :: collapseNewlines t
      | [] => [a]
      end
  end.

(** [s.replace(/^\d+\.\s+/, "")]: the pattern is anchored at the start, both
    quantifiers are greedy, and no shorter choice of [\d+] can be followed by
    the dot, so the match, when there is one, is the longest digit prefix, a
    dot, and the longest run of whitespace after it. *)
Definition stripEnumeration (s : jsstring) : jsstring :=
  match takeWhile is_digit s, dropWhile is_digit s with
  | _ :: _, c :: r =>
      if (c =? 46) && (match r with w :: _ => is_ws w | [] => false end)
      then dropWhile is_ws r
      else s
  | _, _ => s
  end.

(** [segments.join(sep)] *)
Fixpoint join (sep : jsstring) (segments : list jsstring) : jsstring :=
  match segments with
  | [] => []
  | [seg] => seg
  | seg :: rest => seg ++ sep ++ join sep rest
  end.

Definition starts_with (p : N -> bool) (s : jsstring) : bool :=
  match s with
  | c :: _ => p c
  | [] => false
  end.

Definition ends_with (p : N -> bool) (s : jsstring) : bool :=
  starts_with p (List.rev s).

(** No two newlines next to each other. *)
Fixpoint single_newlines (s : jsstring) : bool :=
  match s with
  | [] => true
  | a :: t =>
      match t with
      | b :: _ => negb ((a =? nl) && (b =? nl)) && single_newlines t
      | [] => true
      end
  end.

End JsString.

Import JsString.

(** ** The question parser and the preprocessor, on text *)

(** The question parser inside [generateQuestions]:
    [raw.split("\n").map(q => q.trim().replace(/\n{2,}/g, "\n").replace(/^\d+\.\s+/, ""))
        .filter(q => q.length > 0)]. *)
Definition cleanQuestion (question : jsstring) : jsstring :=
  stripEnumeration (collapseNewlines (trim question)).

Definition parseQuestions (raw : jsstring) : list jsstring :=
  List.filter (fun question => (0 <? length question)%nat)
    (List.map cleanQuestion (split nl raw)).

(** The string half of [preProcessDocuments]:
    [pageContent.replace(/\n{2,}/g, "\n").trim()]. *)
Definition preProcess (pageContent : jsstring) : jsstring :=
  trim (collapseNewlines pageContent).


(** [s.replace(pattern, replacement)] with a string pattern: only the first
    occurrence is replaced, and the replacement text is expanded by
    GetSubstitution. *)
Fixpoint stripPrefix (p s : jsstring) : option jsstring :=
  match p, s with
  | [], _ => Some s
  | _ :: _, [] => None
  | a :: p', b :: s' => if a =? b then stripPrefix p' s' else None
  end.

(** The text before and after the first occurrence of [pattern]. *)
Fixpoint breakOn (pattern s : jsstring) : option (jsstring * jsstring) :=
  match stripPrefix pattern s with
  | Some rest => Some ([], rest)
  | None =>
      match s with
      | [] => None
      | c :: t =>
          match breakOn pattern t with
          | Some (before, after) => Some (c :: before, after)
          | None => None
          end
      end
  end.

(** GetSubstitution for a string pattern (no capture groups): [$$] is a
    dollar, [$&] the matched text, [$`] the text before the match, [$'] the
    text after it; any other dollar stands for itself. *)
Fixpoint getSubstitution (matched before after template : jsstring) : jsstring :=
  match template with
  | [] => []
  | c :: t =>
      if c =? dollar then
        match t with
        | d :: t' =>
            if d =? dollar then dollar :: getSubstitution matched before after t'
            else if d =? 38 then matched ++ getSubstitution matched before after t'
            else if d =? 96 then before ++ getSubstitution matched before after t'
            else if d =? 39 then after ++ getSubstitution matched before after t'
            else c :: getSubstitution matched before after t
        | [] => [c]
        end
      else c :: getSubstitution matched before after t
  end.

Definition replace (pattern replacement s : jsstring) : jsstring :=
  match breakOn pattern s with
  | Some (before, after) =>
      before ++ getSubstitution pattern before after replacement ++ after
  | None => s
  end.


(** ** Numbers

    The numbers of the program that take part in the properties are results
    of [parseInt], modification times and counters.  [Int z] is the
    integer-valued number [z]; it is exact for safe integers. *)
Inductive Number : Type :=
| NaN
| Int (z : Z).

Fixpoint uintDigits (d : Decimal.uint) : jsstring :=
  match d with
  | Decimal.Nil => []
  | Decimal.D0 r => 48 :: uintDigits r
  | Decimal.D1 r => 49 :: uintDigits r
  | Decimal.D2 r => 50 :: uintDigits r
  | Decimal.D3 r => 51 :: uintDigits r
  | Decimal.D4 r => 52 :: uintDigits r
  | Decimal.D5 r => 53 :: uintDigits r
  | Decimal.D6 r => 54 :: uintDigits r
  | Decimal.D7 r => 55 :: uintDigits r
  | Decimal.D8 r => 56 :: uintDigits r
  | Decimal.D9 r => 57 :: uintDigits r
  end.

Definition decimal (n : N) : jsstring := uintDigits (N.to_uint n).

(** [n.toString()], also the conversion inside template literals. *)
Definition Number_toString (n : Number) : jsstring :=
  match n with
  | NaN => js "NaN"
  | Int z => if (z <? 0)%Z then 45 :: decimal (Z.abs_N z) else decimal (Z.abs_N z)
  end.

(** ** Values and documents *)
Unset Elimination Schemes.
Inductive value : Type :=
| VUndefined
| VNull
| VBool (b : bool)
| VNumber (n : Number)
| VString (s : jsstring)
| VArray (items : list value)
| VObject (props : list (jsstring * value)).
Set Elimination Schemes.

(** A langchain [Document]: its text and a [Record<string, any>]. *)
Record Document : Type := mkDocument {
  pageContent : jsstring;
  metadata : list (jsstring * value)
}.

(** [preProcessDocuments]: every document keeps its fields but the text. *)
Definition preProcessDocuments (documents : list Document) : list Document :=
  List.map (fun document =>
              {| pageContent := preProcess (pageContent document);
                 metadata := metadata document |}) documents.

(** ** The prompt *)
Definition PROMPT_TEMPLATE : jsstring :=
  js "Expert Question Generator, style of Gladwell & Pink. Analyze: "
  ++ [dquote] ++ js "{document}" ++ [dquote]
  ++ js ", generate {numQuestions} diverse, comprehensive questions, adjustable complexity, for students to professionals. Skip with a single "
  ++ [nl] ++ js ". No answers.".

(** The prompt built at the head of [generateQuestions]. *)
Definition buildPrompt (document : Document) (questionsPerDocument : Number) : jsstring :=
  replace (js "{questions}") (Number_toString questionsPerDocument)
    (replace (js "{document}") (pageContent document) PROMPT_TEMPLATE).

(** What the documentation of the template asks for: the template with the
    text put in place of [{document}] and the count in place of
    [{numQuestions}]. *)
Definition templateBefore : jsstring :=
  js "Expert Question Generator, style of Gladwell & Pink. Analyze: " ++ [dquote].
Definition templateMiddle : jsstring := [dquote] ++ js ", generate ".
Definition templateAfter : jsstring :=
  js " diverse, comprehensive questions, adjustable complexity, for students to professionals. Skip with a single "
  ++ [nl] ++ js ". No answers.".

Definition substitutedPrompt (content count : jsstring) : jsstring :=
  templateBefore ++ content ++ templateMiddle ++ count ++ templateAfter.

(** ** UTF-8

    [Buffer.from(text)] and the string argument of [Hash.update] encode
    text as UTF-8; [buffer.toString()] decodes it. *)

Definition isHighSurrogate (c : N) : bool := (55296 <=? c) && (c <=? 56319).
Definition isLowSurrogate (c : N) : bool := (56320 <=? c) && (c <=? 57343).

Definition replacementBytes : list N := [239; 191; 189].

Definition utf8CodePoint (cp : N) : list N :=
  if cp <? 128 then [cp]
  else if cp <? 2048 then [192 + cp / 64; 128 + cp mod 64]
  else if cp <? 65536 then
    [224 + cp / 4096; 128 + (cp / 64) mod 64; 128 + cp mod 64]
  else
    [240 + cp / 262144; 128 + (cp / 4096) mod 64; 128 + (cp / 64) mod 64;
     128 + cp mod 64].

(** A surrogate pair is one code point; a surrogate without its partner is
    written as U+FFFD. *)
Fixpoint utf8Encode (s : jsstring) : list N :=
  match s with
  | [] => []
  | c :: t =>
      if isHighSurrogate c then
        match t with
        | d :: t' =>
            if isLowSurrogate d
            then utf8CodePoint (65536 + (c - 55296) * 1024 + (d - 56320))
                   ++ utf8Encode t'
            else replacementBytes ++ utf8Encode t
        | [] => replacementBytes
        end
      else if isLowSurrogate c then replacementBytes ++ utf8Encode t
      else utf8CodePoint c ++ utf8Encode t
  end.

(** The code units of a decoded code point. *)
Definition codeUnits (cp : N) : jsstring :=
  if cp <? 65536 then [cp]
  else [55296 + (cp - 65536) / 1024; 56320 + (cp - 65536) mod 1024].

(** The decoder is the one of the Encoding standard: a lead byte announces
    how many continuation bytes follow and in which range the first of them
    must lie; a byte out of range ends the sequence with U+FFFD and is read
    again as a lead byte. *)
Record Pending : Type := mkPending {
  needed : nat;
  codePoint : N;
  lower : N;
  upper : N
}.

Inductive Lead : Type :=
| Single (c : N)
| Multi (p : Pending)
| Invalid.

Definition lead (b : N) : Lead :=
  if b <? 128 then Single b
  else if (194 <=? b) && (b <=? 223) then Multi (mkPending 1 (b - 192) 128 191)
  else if (224 <=? b) && (b <=? 239) then
    Multi (mkPending 2 (b - 224) (if b =? 224 then 160 else 128)
             (if b =? 237 then 159 else 191))
  else if (240 <=? b) && (b <=? 244) then
    Multi (mkPending 3 (b - 240) (if b =? 240 then 144 else 128)
             (if b =? 244 then 143 else 191))
  else Invalid.

Fixpoint utf8Decode (state : option Pending) (bytes : list N) : jsstring :=
  match bytes with
  | [] => match state with None => [] | Some _ => [65533] end
  | b :: rest =>
      let fresh :=
        match lead b with
        | Single c => c :: utf8Decode None rest
        | Multi p => utf8Decode (Some p) rest
        | Invalid => 65533 :: utf8Decode None rest
        end in
      match state with
      | None => fresh
      | Some p =>
          if (lower p <=? b) && (b <=? upper p) then
            let cp := codePoint p * 64 + (b - 128) in
            match needed p with
            | S (S n) => utf8Decode (Some (mkPending (S n) cp 128 191)) rest
            | _ => codeUnits cp ++ utf8Decode None rest
            end
          else 65533 :: fresh
      end
  end.

Definition Buffer_from (text : jsstring) : list N := utf8Encode text.
Definition Buffer_toString (buffer : list N) : jsstring := utf8Decode None buffer.


(** ** MD5 (RFC 1321), on bytes *)

Module MD5.

Definition shifts : list N :=
  [7; 12; 17; 22; 7; 12; 17; 22; 7; 12; 17; 22; 7; 12; 17; 22;
   5; 9; 14; 20; 5; 9; 14; 20; 5; 9; 14; 20; 5; 9; 14; 20;
   4; 11; 16; 23; 4; 11; 16; 23; 4; 11; 16; 23; 4; 11; 16; 23;
   6; 10; 15; 21; 6; 10; 15; 21; 6; 10; 15; 21; 6; 10; 15; 21].

Definition sines : list N :=
  [3614090360; 3905402710; 606105819; 3250441966; 4118548399; 1200080426;
   2821735955; 4249261313; 1770035416; 2336552879; 4294925233; 2304563134;
   1804603682; 4254626195; 2792965006; 1236535329; 4129170786; 3225465664;
   643717713; 3921069994; 3593408605; 38016083; 3634488961; 3889429448;
   568446438; 3275163606; 4107603335; 1163531501; 2850285829; 4243563512;
   1735328473; 2368359562; 4294588738; 2272392833; 1839030562; 4259657740;
   2763975236; 1272893353; 4139469664; 3200236656; 681279174; 3936430074;
   3572445317; 76029189; 3654602809; 3873151461; 530742520; 3299628645;
   4096336452; 1126891415; 2878612391; 4237533241; 1700485571; 2399980690;
   4293915773; 2240044497; 1873313359; 4264355552; 2734768916; 1309151649;
   4149444226; 3174756917; 718787259; 3951481745].

Definition word (x : N) : N := x mod 4294967296.
Definition not32 (x : N) : N := N.lxor x 4294967295.
Definition rotl (x c : N) : N :=
  word (N.lor (N.shiftl x c) (N.shiftr x (32 - c))).

Record State : Type := mkState { sa : N; sb : N; sc : N; sd : N }.

Definition initial : State :=
  mkState 1732584193 4023233417 2562383102 271733878.

Definition step (block : list N) (st : State) (i : nat) : State :=
  let '(mkState a b c d) := st in
  let '(f, g) :=
    if (i <? 16)%nat then (N.lor (N.land b c) (N.land (not32 b) d), i)
    else if (i <? 32)%nat then
      (N.lor (N.land d b) (N.land (not32 d) c), ((5 * i + 1) mod 16)%nat)
    else if (i <? 48)%nat then (N.lxor b (N.lxor c d), ((3 * i + 5) mod 16)%nat)
    else (N.lxor c (N.lor b (not32 d)), ((7 * i) mod 16)%nat) in
  let sum := word (f + a + nth i sines 0 + nth g block 0) in
  mkState d (word (b + rotl sum (nth i shifts 0))) b c.

(** Little-endian 32-bit words of a run of bytes. *)
Fixpoint words (bytes : list N) : list N :=
  match bytes with
  | b0 :: b1 :: b2 :: b3 :: rest =>
      (b0 + 256 * b1 + 65536 * b2 + 16777216 * b3) :: words rest
  | _ => []
  end.

Definition compress (st : State) (block : list N) : State :=
  let '(mkState a b c d) := List.fold_left (step block) (seq 0 64) st in
  mkState (word (sa st + a)) (word (sb st + b)) (word (sc st + c)) (word (sd st + d)).

Fixpoint chunks (n : nat) (blocks : nat) (ws : list N) : list (list N) :=
  match blocks with
  | O => []
  | S k => firstn n ws :: chunks n k (skipn n ws)
  end.

Fixpoint littleEndian (count : nat) (x : N) : list N :=
  match count with
  | O => []
  | S k => x mod 256 :: littleEndian k (x / 256)
  end.

(** The message, a one bit, zeros up to 56 modulo 64, the bit length. *)
Definition padded (message : list N) : list N :=
  let len := length message in
  let zeros := ((119 - len mod 64) mod 64)%nat in
  message ++ [128] ++ List.repeat 0 zeros
    ++ littleEndian 8 (8 * N.of_nat len).

Definition digest (message : list N) : list N :=
  let p := padded message in
  let '(mkState a b c d) :=
    List.fold_left compress (chunks 16 (length p / 64) (words p)) initial in
  littleEndian 4 a ++ littleEndian 4 b ++ littleEndian 4 c ++ littleEndian 4 d.

End MD5.

Definition hexDigit (d : N) : N := if d <? 10 then 48 + d else 87 + d.

(** [digest("hex")] *)
Definition hex (bytes : list N) : jsstring :=
  List.flat_map (fun b => [hexDigit (b / 16); hexDigit (b mod 16)]) bytes.

(** [hash(input)]: [createHash("md5").update(input).digest("hex")] *)
Definition hash (input : jsstring) : jsstring := hex (MD5.digest (utf8Encode input)).

(** ** The directory fingerprint *)

(** A file as [glob] and [fs.stat] show it, and what it holds.  Modification
    times are taken in whole milliseconds. *)
Record FileEntry : Type := mkFile {
  filePath : jsstring;
  mtimeMs : Z;
  fileContent : list N
}.

(** The files under a directory in the order in which [glob] lists them. *)
Definition Directory : Type := list FileEntry.

(** [`${file}:${stat.mtimeMs}`] *)
Definition fileInfo (file : FileEntry) : jsstring :=
  filePath file ++ [58] ++ Number_toString (Int (mtimeMs file)).

(** [fileInfos.join(",")], the text that is hashed. *)
Definition listing (directory : Directory) : jsstring :=
  join [44] (List.map fileInfo directory).

(** [getDirectoryHash], as a function of what it reads. *)
Definition fingerprint (directory : Directory) : jsstring :=
  hash (listing directory).



(** The file with other content, path and time as they were. *)
Definition rewrite (content : list N) (file : FileEntry) : FileEntry :=
  {| filePath := filePath file; mtimeMs := mtimeMs file; fileContent := content |}.

(** ** Outcomes

    A call returns, throws (a promise is rejected), or leaves the part of
    JavaScript that is modelled here. *)
Inductive Result (A : Type) : Type :=
| Returns (a : A)
| Throws
| Unmodelled.
Arguments Returns {A} a.
Arguments Throws {A}.
Arguments Unmodelled {A}.

#[global] Instance Result_ret : MRet Result := fun A a => Returns a.
#[global] Instance Result_bind : MBind Result := fun A B k r =>
  match r with
  | Returns a => k a
  | Throws => Throws
  | Unmodelled => Unmodelled
  end.

(** ** JSON *)

Definition hex4 (c : N) : jsstring :=
  [hexDigit (c / 4096); hexDigit ((c / 256) mod 16);
   hexDigit ((c / 16) mod 16); hexDigit (c mod 16)].

Definition unicodeEscape (c : N) : jsstring := [92; 117] ++ hex4 c.

Definition escapeCodeUnit (c : N) : jsstring :=
  if c =? 8 then [92; 98]
  else if c =? 9 then [92; 116]
  else if c =? 10 then [92; 110]
  else if c =? 12 then [92; 102]
  else if c =? 13 then [92; 114]
  else if c =? 34 then [92; 34]
  else if c =? 92 then [92; 92]
  else if c <? 32 then unicodeEscape c
  else [c].

(** QuoteJSONString between its quotes: control characters, the quote and
    the backslash are escaped, and so is a surrogate without its partner. *)
Fixpoint quoteBody (s : jsstring) : jsstring :=
  match s with
  | [] => []
  | c :: t =>
      if isHighSurrogate c then
        match t with
        | d :: t' =>
            if isLowSurrogate d then c :: d :: quoteBody t'
            else unicodeEscape c ++ quoteBody t
        | [] => unicodeEscape c
        end
      else if isLowSurrogate c then unicodeEscape c ++ quoteBody t
      else escapeCodeUnit c ++ quoteBody t
  end.

Definition quoteJSONString (s : jsstring) : jsstring :=
  dquote :: quoteBody s ++ [dquote].

(** SerializeJSONProperty without replacer and indentation; [None] is the
    [undefined] that makes an object drop the property and an array write
    [null]. *)
Fixpoint serializeJSONProperty (v : value) : option jsstring :=
  match v with
  | VUndefined => None
  | VNull => Some (js "null")
  | VBool b => Some (if b then js "true" else js "false")
  | VNumber NaN => Some (js "null")
  | VNumber (Int z) => Some (Number_toString (Int z))
  | VString s => Some (quoteJSONString s)
  | VArray items =>
      Some ([91]
            ++ join [44]
                 (List.map (fun item =>
                              match serializeJSONProperty item with
                              | Some text => text
                              | None => js "null"
                              end) items)
            ++ [93])
  | VObject props =>
      Some ([123]
            ++ join [44]
                 (List.flat_map (fun prop =>
                                   match serializeJSONProperty (snd prop) with
                                   | Some text =>
                                       [quoteJSONString (fst prop) ++ [58] ++ text]
                                   | None => []
                                   end) props)
            ++ [125])
  end.

(** [JSON.stringify(v)] *)
Definition JSON_stringify (v : value) : option jsstring := serializeJSONProperty v.

(** SerializeJSONProperty with a gap of two spaces: every item and member on
    a line of its own, one step further in than the bracket that holds it. *)
Fixpoint serializeIndented (indent : jsstring) (v : value) : option jsstring :=
  let inner := indent ++ js "  " in
  let separator := [44; nl] ++ inner in
  match v with
  | VArray items =>
      match items with
      | [] => Some (js "[]")
      | _ :: _ =>
          Some ([91; nl] ++ inner
                ++ join separator
                     (List.map (fun item =>
                                  match serializeIndented inner item with
                                  | Some text => text
                                  | None => js "null"
                                  end) items)
                ++ [nl] ++ indent ++ [93])
      end
  | VObject props =>
      match List.flat_map (fun prop =>
                             match serializeIndented inner (snd prop) with
                             | Some text =>
                                 [quoteJSONString (fst prop) ++ [58; 32] ++ text]
                             | None => []
                             end) props with
      | [] => Some (js "{}")
      | members => Some ([123; nl] ++ inner ++ join separator members
                         ++ [nl] ++ indent ++ [125])
      end
  | _ => serializeJSONProperty v
  end.

(** [JSON.stringify(v, null, 2)] *)
Definition JSON_stringify_indented (v : value) : option jsstring :=
  serializeIndented [] v.

Definition isJsonWhitespace (c : N) : bool :=
  (c =? 9) || (c =? 10) || (c =? 13) || (c =? 32).

Definition skipWhitespace (s : jsstring) : jsstring := dropWhile isJsonWhitespace s.

Definition hexValue (c : N) : option N :=
  if is_digit c then Some (c - 48)
  else if (97 <=? c) && (c <=? 102) then Some (c - 87)
  else if (65 <=? c) && (c <=? 70) then Some (c - 55)
  else None.

Definition unescape (c : N) : option N :=
  if c =? 34 then Some 34
  else if c =? 92 then Some 92
  else if c =? 47 then Some 47
  else if c =? 98 then Some 8
  else if c =? 102 then Some 12
  else if c =? 110 then Some 10
  else if c =? 114 then Some 13
  else if c =? 116 then Some 9
  else None.

Definition consParsed {A : Type} (a : A) (r : Result (list A * jsstring))
  : Result (list A * jsstring) :=
  '(l, rest) ← r; Returns (a :: l, rest).

(** A JSON string after its opening quote. *)
Fixpoint parseStringBody (s : jsstring) : Result (jsstring * jsstring) :=
  match s with
  | [] => Throws
  | c :: t =>
      if c =? 34 then Returns ([], t)
      else if c =? 92 then
        match t with
        | e :: t' =>
            if e =? 117 then
              match t' with
              | h1 :: h2 :: h3 :: h4 :: t'' =>
                  match hexValue h1, hexValue h2, hexValue h3, hexValue h4 with
                  | Some d1, Some d2, Some d3, Some d4 =>
                      consParsed (((d1 * 16 + d2) * 16 + d3) * 16 + d4)
                        (parseStringBody t'')
                  | _, _, _, _ => Throws
                  end
              | _ => Throws
              end
            else
              match unescape e with
              | Some c' => consParsed c' (parseStringBody t')
              | None => Throws
              end
        | [] => Throws
        end
      else if c <? 32 then Throws
      else consParsed c (parseStringBody t)
  end.

Fixpoint digitsValue (acc : N) (digits : jsstring) : N :=
  match digits with
  | [] => acc
  | c :: t => digitsValue (10 * acc + (c - 48)) t
  end.

(** The integer part of a JSON number: a lone zero, or digits that do not
    begin with zero. *)
Definition integerPart (s : jsstring) : jsstring * jsstring :=
  match s with
  | c :: t => if c =? 48 then ([c], t)
              else (takeWhile is_digit s, dropWhile is_digit s)
  | [] => ([], [])
  end.

(** A JSON number.  A fraction or an exponent, the negative zero and
    integers that are not safe lead out of the model. *)
Definition parseUnsigned (negative : bool) (s : jsstring) : Result (value * jsstring) :=
  let (digits, rest) := integerPart s in
  match digits with
  | [] => Throws
  | _ :: _ =>
      if starts_with (fun c => (c =? 46) || (c =? 101) || (c =? 69)) rest
      then Unmodelled
      else
        let n := digitsValue 0 digits in
        if negative && (n =? 0) then Unmodelled
        else if 9007199254740991 <? n then Unmodelled
        else Returns (VNumber (Int (if negative then - Z.of_N n else Z.of_N n)), rest)
  end.

Definition parseNumber (s : jsstring) : Result (value * jsstring) :=
  match s with
  | c :: t => if c =? 45 then parseUnsigned true t else parseUnsigned false s
  | [] => Throws
  end.

Definition expect (word : jsstring) (v : value) (s : jsstring)
  : Result (value * jsstring) :=
  match stripPrefix word s with
  | Some rest => Returns (v, rest)
  | None => Throws
  end.

(** Writing a property of the object under construction: a key that is
    already there keeps its place and takes the new value. *)
Fixpoint setProperty (key : jsstring) (v : value) (props : list (jsstring * value))
  : list (jsstring * value) :=
  match props with
  | [] => [(key, v)]
  | (k, old) :: rest =>
      if decide (k = key) then (k, v) :: rest
      else (k, old) :: setProperty key v rest
  end.

(** The JSON grammar by recursive descent.  [fuel] bounds the depth of the
    calls: a call takes at most two steps down for a character it reads, so
    twice the length of the text is enough. *)
Fixpoint parseValue (fuel : nat) (s : jsstring) : Result (value * jsstring) :=
  match fuel with
  | O => Unmodelled
  | S fuel =>
      match skipWhitespace s with
      | [] => Throws
      | c :: t =>
          if c =? 110 then expect (js "ull") VNull t
          else if c =? 116 then expect (js "rue") (VBool true) t
          else if c =? 102 then expect (js "alse") (VBool false) t
          else if c =? 34 then
            '(text, rest) ← parseStringBody t; Returns (VString text, rest)
          else if c =? 91 then
            if starts_with (fun c => c =? 93) (skipWhitespace t)
            then Returns (VArray [], List.tl (skipWhitespace t))
            else '(items, rest) ← parseItems fuel t; Returns (VArray items, rest)
          else if c =? 123 then
            if starts_with (fun c => c =? 125) (skipWhitespace t)
            then Returns (VObject [], List.tl (skipWhitespace t))
            else '(props, rest) ← parseMembers fuel [] t; Returns (VObject props, rest)
          else if (c =? 45) || is_digit c then parseNumber (c :: t)
          else Throws
      end
  end
with parseItems (fuel : nat) (s : jsstring) : Result (list value * jsstring) :=
  match fuel with
  | O => Unmodelled
  | S fuel =>
      '(v, rest) ← parseValue fuel s;
      match skipWhitespace rest with
      | [] => Throws
      | c :: t =>
          if c =? 44 then consParsed v (parseItems fuel t)
          else if c =? 93 then Returns ([v], t)
          else Throws
      end
  end
with parseMembers (fuel : nat) (props : list (jsstring * value)) (s : jsstring)
  : Result (list (jsstring * value) * jsstring) :=
  match fuel with
  | O => Unmodelled
  | S fuel =>
      match skipWhitespace s with
      | [] => Throws
      | q :: t =>
          if q =? 34 then
            '(key, rest) ← parseStringBody t;
            match skipWhitespace rest with
            | [] => Throws
            | colon :: t2 =>
                if colon =? 58 then
                  '(v, rest2) ← parseValue fuel t2;
                  match skipWhitespace rest2 with
                  | [] => Throws
                  | c :: t3 =>
                      if c =? 44 then parseMembers fuel (setProperty key v props) t3
                      else if c =? 125 then Returns (setProperty key v props, t3)
                      else Throws
                  end
                else Throws
            end
          else Throws
      end
  end.

(** [JSON.parse(text)]; [Throws] is its SyntaxError. *)
Definition JSON_parse (text : jsstring) : Result value :=
  '(v, rest) ← parseValue (2 * length text + 2) text;
  match skipWhitespace rest with
  | [] => Returns v
  | _ :: _ => Throws
  end.

(** A value that JSON carries without loss. *)
Definition validString (s : jsstring) : bool := List.forallb (fun c => c <? 65536) s.

Definition distinct (keys : list jsstring) : bool := bool_decide (NoDup keys).

Fixpoint jsonSafe (v : value) : bool :=
  match v with
  | VUndefined => false
  | VNull => true
  | VBool _ => true
  | VNumber NaN => false
  | VNumber (Int z) => (Z.abs z <=? 9007199254740991)%Z
  | VString s => validString s
  | VArray items => List.forallb jsonSafe items
  | VObject props =>
      distinct (List.map fst props)
      && List.forallb (fun prop => validString (fst prop) && jsonSafe (snd prop)) props
  end.


(** The text of a value inside an array; the text of a property. *)
Definition textOf (v : value) : jsstring :=
  match serializeJSONProperty v with
  | Some text => text
  | None => js "null"
  end.


(** What may follow a value inside a text. *)
Definition closes (rest : jsstring) : bool :=
  match rest with
  | [] => true
  | c :: _ => (c =? 44) || (c =? 93) || (c =? 125)
  end.


(** What a value may begin with. *)
Definition opens (c : N) : bool :=
  (c =? 110) || (c =? 116) || (c =? 102) || (c =? 34) || (c =? 91) || (c =? 123)
  || (c =? 45) || is_digit c.



(** A document as the value it is. *)
Definition documentValue (document : Document) : value :=
  VObject [(js "pageContent", VString (pageContent document));
           (js "metadata", VObject (metadata document))].

Definition documentsValue (documents : list Document) : value :=
  VArray (List.map documentValue documents).


(** ** The file system and the loader *)

(** What the program asks of the outside. *)
Inductive Effect : Type :=
| Glob (path : jsstring)
| Stat (file : jsstring)
| Load (path : jsstring)
| ReadFile (file : jsstring)
| WriteFile (file : jsstring) (data : list N).

(** The files of the temporary directory by their resolved path, whether
    that directory takes writes, and the requests made so far. *)
Record World : Type := mkWorld {
  tmpFiles : gmap (list N) (list N);
  tmpWritable : bool;
  trace : list Effect
}.

Definition record (effects : list Effect) (world : World) : World :=
  {| tmpFiles := tmpFiles world;
     tmpWritable := tmpWritable world;
     trace := trace world ++ effects |}.

Definition isCacheEffect (effect : Effect) : bool :=
  match effect with
  | Load _ => false
  | _ => true
  end.

Section Ingestion.

(** [os.tmpdir()] *)
Variable tmpdir : jsstring.
(** [resolve(from, to)] of the path module. *)
Variable resolve : jsstring -> jsstring -> jsstring.
(** The files that [glob] and [fs.stat] find under a path. *)
Variable directory : jsstring -> Directory.
(** [new DirectoryLoader(path, ...).load()]; [None] when it fails. *)
Variable loader : jsstring -> option (list Document).

Definition cacheFile (id : jsstring) : jsstring :=
  resolve tmpdir (js "QG_" ++ id ++ js ".bin").

(** [cacheTMP(id, data)] *)
Definition cacheTMP (id : jsstring) (data : list N) (world : World)
  : Result unit * World :=
  if tmpWritable world then
    (Returns tt,
     {| tmpFiles := <[cacheFile id := data]> (tmpFiles world);
        tmpWritable := true;
        trace := trace world ++ [WriteFile (cacheFile id) data] |})
  else (Throws, record [WriteFile (cacheFile id) data] world).

(** [readTMP(id)] *)
Definition readTMP (id : jsstring) (world : World) : Result (list N) * World :=
  (match tmpFiles world !! cacheFile id with
   | Some data => Returns data
   | None => Throws
   end,
   record [ReadFile (cacheFile id)] world).

(** [getDirectoryHash(path)] *)
Definition getDirectoryHash (path : jsstring) (world : World) : jsstring * World :=
  let files := directory path in
  (fingerprint files,
   record (Glob path :: List.map (fun file => Stat (resolve path (filePath file))) files)
     world).

(** [loader.load().then(this.preProcessDocuments)] *)
Definition loadAndPreProcess (path : jsstring) (world : World)
  : Result (list Document) * World :=
  (match loader path with
   | Some documents => Returns (preProcessDocuments documents)
   | None => Throws
   end,
   record [Load path] world).

(** The cache lookup: [JSON.parse((await this.readTMP(pathHash)).toString())]. *)
Definition getCached (pathHash : jsstring) (world : World) : Result value * World :=
  let (data, read) := readTMP pathHash world in
  (buffer ← data; JSON_parse (Buffer_toString buffer), read).

(** The cache store:
    [this.cacheTMP(pathHash, Buffer.from(JSON.stringify(processedDocuments)))]. *)
Definition putCached (pathHash : jsstring) (processedDocuments : list Document)
    (world : World) : Result unit * World :=
  match JSON_stringify (documentsValue processedDocuments) with
  | Some text => cacheTMP pathHash (Buffer_from text) world
  | None => (Throws, world)
  end.

(** [loadDocuments(path, options, spinner)]; [cache] is [options.cache]. *)
Definition loadDocuments (path : jsstring) (cache : bool) (world : World)
  : Result value * World :=
  if negb cache then
    let (loaded, after) := loadAndPreProcess path world in
    (documents ← loaded; Returns (documentsValue documents), after)
  else
    let (pathHash, hashed) := getDirectoryHash path world in
    let (cached, looked) := getCached pathHash hashed in
    match cached with
    | Returns documents => (Returns documents, looked)
    | Unmodelled => (Unmodelled, looked)
    | Throws =>
        let (loaded, after) := loadAndPreProcess path looked in
        match loaded with
        | Returns processedDocuments =>
            let (stored, written) := putCached pathHash processedDocuments after in
            (_ ← stored; Returns (documentsValue processedDocuments), written)
        | Throws => (Throws, after)
        | Unmodelled => (Unmodelled, after)
        end
    end.


(** The cache entry of a fingerprint is missing or does not parse. *)
Definition unusableEntry (pathHash : jsstring) (world : World) : Prop :=
  match tmpFiles world !! cacheFile pathHash with
  | None => True
  | Some data => JSON_parse (Buffer_toString data) = Throws
  end.

End Ingestion.

(** ** Generation *)

Section Generation.

(** [openai.call(prompt)]: the completion text, or [None] when the call
    fails (the promise is rejected).  The function stands for the answers
    the service gives during one run. *)
Variable openai : jsstring -> option jsstring.

Definition generateQuestions (document : Document) (questionsPerDocument : Number)
  : option (list jsstring) :=
  match openai (buildPrompt document questionsPerDocument) with
  | Some completion => Some (parseQuestions completion)
  | None => None
  end.

(** The state shared by the tasks of [execute]: the array [questions] and
    the text last written to the output file ([None] while this run has
    written nothing).  Writes are taken to land whole and in the order they
    are issued. *)
Record Run : Type := mkRun {
  questions : list (list jsstring);
  outputFile : option jsstring
}.

Definition started : Run := {| questions := []; outputFile := None |}.

(** The array of arrays of strings as a value, and
    [JSON.stringify(questions, null, 2)]. *)
Definition questionsValue (questions : list (list jsstring)) : value :=
  VArray (List.map (fun generated => VArray (List.map VString generated)) questions).

Definition questionsText (questions : list (list jsstring)) : option jsstring :=
  JSON_stringify_indented (questionsValue questions).

(** What a task does once its completion call has returned:
    [questions.push(generatedQuestions)] and the rewrite of the file. *)
Definition pushAndWrite (run : Run) (generatedQuestions : list jsstring) : Run :=
  let pushed := questions run ++ [generatedQuestions] in
  {| questions := pushed; outputFile := questionsText pushed |}.

(** [await Promise.all(documents.map(...))].  All completion calls are
    issued at once; [order] lists the document indices in the order in which
    the calls return, every index once.  The result is the state at the moment
    [Promise.all] settles, and whether it was fulfilled: it is rejected by the
    first task that fails. *)
Fixpoint awaitAll (documents : list Document) (questionsPerDocument : Number)
    (order : list nat) (run : Run) : bool * Run :=
  match order with
  | [] => (true, run)
  | index :: later =>
      match nth_error documents index with
      | None => awaitAll documents questionsPerDocument later run
      | Some document =>
          match generateQuestions document questionsPerDocument with
          | Some generatedQuestions =>
              awaitAll documents questionsPerDocument later
                (pushAndWrite run generatedQuestions)
          | None => (false, run)
          end
      end
  end.

(** [execute] ends either with the line of [spinner.succeed] or rejected. *)
Inductive Outcome : Type :=
| Succeeded (summary : jsstring)
| Rejected.

Definition natToString (n : nat) : jsstring := Number_toString (Int (Z.of_nat n)).

Definition summaryLine (run : Run) (documents : list Document) (output : jsstring)
  : jsstring :=
  js "Generated " ++ natToString (length (List.concat (questions run)))
  ++ js " questions for " ++ natToString (length documents)
  ++ js " documents in " ++ [dquote] ++ output ++ [dquote] ++ js ".".

(** [execute], from the loaded documents on. *)
Definition execute (documents : list Document) (questionsPerDocument : Number)
    (output : jsstring) (order : list nat) : Outcome * Run :=
  match awaitAll documents questionsPerDocument order started with
  | (true, run) => (Succeeded (summaryLine run documents output), run)
  | (false, run) => (Rejected, run)
  end.






End Generation.

(** ** Sample inputs *)

Definition catDocument : Document :=
  {| pageContent := js "Cats purr."; metadata := [] |}.
Definition owlDocument : Document :=
  {| pageContent := js "Owls hoot."; metadata := [] |}.


(** Sample directories, metadata and worlds. *)
Definition fileA : FileEntry :=
  {| filePath := js "a.txt"; mtimeMs := 1000; fileContent := js "alpha" |}.
Definition fileB : FileEntry :=
  {| filePath := js "b.txt"; mtimeMs := 2000; fileContent := js "beta" |}.

Definition sampleResolve (from to : jsstring) : jsstring := from ++ [47] ++ to.
Definition sampleDirectory (path : jsstring) : Directory := [fileA; fileB].
Definition sampleLoader (path : jsstring) : option (list Document) :=
  Some [{| pageContent := js "alpha" ++ [nl; nl; nl] ++ js "beta ";
           metadata := [(js "source", VString (js "a.txt"))] |}].


(** A world whose cache entry for the sample directory was cut short. *)
Definition corruptWorld : World :=
  {| tmpFiles := {[ sampleResolve (js "/tmp")
                      (js "QG_98f40c6373f61998646d078caa06d812.bin")
                    := js "[{" ]};
     tmpWritable := true;
     trace := [] |}.




(** ** The parser and the preprocessor in the words of their description *)

(** What [trim] returns, said without the algorithm: the middle of the
    string between a whitespace prefix and a whitespace suffix, itself
    neither starting nor ending with whitespace. *)
Definition trimmed (s t : jsstring) : Prop :=
  exists l r, s = l ++ t ++ r
    /\ List.forallb is_ws l = true /\ List.forallb is_ws r = true
    /\ starts_with is_ws t = false /\ ends_with is_ws t = false.

Definition has_double_newline (s : jsstring) : Prop :=
  exists l r, s = l ++ nl :: nl :: r.

(** An enumeration marker: digits, a dot, whitespace. *)
Definition isMarker (m : jsstring) : Prop :=
  exists ds ws, m = ds ++ 46 :: ws
    /\ ds <> [] /\ List.forallb is_digit ds = true
    /\ ws <> [] /\ List.forallb is_ws ws = true.

(** [t] is [s] without its leading enumeration marker, if it has one. *)
Definition markerStripped (s t : jsstring) : Prop :=
  (exists m, isMarker m /\ s = m ++ t /\ starts_with is_ws t = false)
  \/ (t = s /\ forall m r, isMarker m -> s <> m ++ r).

(** The inputs of the parser examples. *)
Definition numberedCompletion : jsstring :=
  js "1. What is X?" ++ [nl; nl] ++ js "2. Why Y?" ++ [nl].
Definition blankCompletion : jsstring := [nl; nl].

(** ** Predicates for the further properties *)

(** Text as the preprocessor leaves it: no newline next to another, no
    whitespace at either end. *)
Definition normalText (s : jsstring) : bool :=
  single_newlines s && negb (starts_with is_ws s) && negb (ends_with is_ws s).

(** Text without a dollar sign and without an opening brace. *)
Definition plainText (s : jsstring) : bool :=
  List.forallb (fun c => negb ((c =? dollar) || (c =? 123))) s.

(** A digit of a lower-case hexadecimal number. *)
Definition isLowerHex (c : N) : bool := is_digit c || ((97 <=? c) && (c <=? 102)).

(** A world whose cache holds, under the fingerprint of the sample
    directory, a text that is valid JSON but no list of documents. *)
Definition oddWorld : World :=
  {| tmpFiles := {[ sampleResolve (js "/tmp")
                      (js "QG_98f40c6373f61998646d078caa06d812.bin")
                    := js "42" ]};
     tmpWritable := false;
     trace := [] |}.

(** A loader that fails, and one that finds other text in the same files. *)
Definition failingLoader (path : jsstring) : option (list Document) := None.


(** The world after the fingerprint was computed and the entry read. *)
Definition lookedUp (tmpdir : jsstring) (resolve : jsstring -> jsstring -> jsstring)
    (directory : jsstring -> Directory) (path : jsstring) (world : World) : World :=
  record [ReadFile (cacheFile tmpdir resolve (fingerprint (directory path)))]
    (snd (getDirectoryHash resolve directory path world)).

(** A text that is read back as a value, whatever follows it. *)
Definition readsAs (v : value) (text : jsstring) : Prop :=
  starts_with opens text = true
  /\ forall fuel rest,
      (length text <= fuel)%nat ->
      parseValue fuel (text ++ rest) = Returns (v, rest).






(** * Properties *)

(** ** The library functions on known values *)

Section LibraryExamples.

(** The test suite of RFC 1321, and a message of two blocks. *)
Example hash_empty : hash [] = js "d41d8cd98f00b204e9800998ecf8427e".
Proof. vm_compute. reflexivity. Qed.

Example hash_abc : hash (js "abc") = js "900150983cd24fb0d6963f7d28e17f72".
Proof. vm_compute. reflexivity. Qed.

Example hash_message_digest :
  hash (js "message digest") = js "f96b697d7cb7938d525a2f31aaf161d0".
Proof. vm_compute. reflexivity. Qed.

Example hash_two_blocks :
  hash (List.repeat 120 70) = js "7d56c0f83fd1e320d60ea2f13dfdeedd".
Proof. vm_compute. reflexivity. Qed.

(** One, two, three and four bytes, and a surrogate left alone. *)
Example Buffer_from_lengths :
  Buffer_from [97; 233; 8364; 55357; 56832; 55357]
  = [97; 195; 169; 226; 130; 172; 240; 159; 152; 128; 239; 191; 189].
Proof. reflexivity. Qed.

(** Sequences cut short and a surrogate in three bytes are replaced. *)
Example Buffer_toString_invalid :
  Buffer_toString [226; 130; 97; 237; 160; 128; 240; 159]
  = [65533; 97; 65533; 65533; 65533; 65533].
Proof. reflexivity. Qed.

Example trim_spaces : trim (js "  a b  ") = js "a b".
Proof. reflexivity. Qed.

Example split_lines : split nl [97; nl; nl; 98; nl] = [[97]; []; [98]; []].
Proof. reflexivity. Qed.

Example replace_first : replace (js "a") (js "[$&$$]") (js "banana") = js "b[a$]nana".
Proof. reflexivity. Qed.

Example stringify_escapes :
  JSON_stringify (VString [104; 10; 34; 92; 1; 55357])
  = Some ([34; 104] ++ js "\n\" ++ [34] ++ js "\\\u0001\ud83d" ++ [34]).
Proof. reflexivity. Qed.

Example stringify_undefined :
  JSON_stringify (VArray [VUndefined; VObject [(js "a", VUndefined)]])
  = Some (js "[null,{}]").
Proof. reflexivity. Qed.

Example stringify_indented :
  JSON_stringify_indented (questionsValue [[js "a"; js "b"]; []])
  = Some ([91; nl] ++ js "  [" ++ [nl] ++ js "    " ++ [34; 97; 34; 44; nl]
          ++ js "    " ++ [34; 98; 34; nl] ++ js "  ]," ++ [nl] ++ js "  []"
          ++ [nl; 93]).
Proof. reflexivity. Qed.

Example parse_whitespace_and_nesting :
  JSON_parse (js " [1, {  } , [ ] , null, true, -12 ] ")
  = Returns (VArray [VNumber (Int 1); VObject []; VArray []; VNull; VBool true;
                     VNumber (Int (-12))]).
Proof. vm_compute. reflexivity. Qed.

Example parse_repeated_key :
  JSON_parse ([123; 34; 97; 34; 58] ++ js "1," ++ [34; 98; 34; 58] ++ js "2,"
              ++ [34; 97; 34; 58] ++ js "3}")
  = Returns (VObject [(js "a", VNumber (Int 3)); (js "b", VNumber (Int 2))]).
Proof. vm_compute. reflexivity. Qed.

Example parse_errors :
  JSON_parse (js "[1,]") = Throws /\ JSON_parse (js "[01]") = Throws
  /\ JSON_parse [] = Throws /\ JSON_parse (js "nul") = Throws
  /\ JSON_parse (js "1 2") = Throws.
Proof. repeat split; vm_compute; reflexivity. Qed.

Example parse_fraction : JSON_parse (js "[1.5]") = Unmodelled.
Proof. vm_compute. reflexivity. Qed.

End LibraryExamples.

(** ** Strings *)

Section StringFacts.

Lemma dropWhile_fixed p s : starts_with p s = false -> dropWhile p s = s.
Proof. destruct s as [|c t]; simpl; [reflexivity|]. now intros ->. Qed.

Lemma dropWhile_starts p s : starts_with p (dropWhile p s) = false.
Proof.
  induction s as [|c t IH]; simpl; [reflexivity|].
  destruct (p c) eqn:E; [exact IH|]. simpl. exact E.
Qed.

Lemma takeWhile_dropWhile p s : takeWhile p s ++ dropWhile p s = s.
Proof.
  induction s as [|c t IH]; simpl; [reflexivity|].
  destruct (p c); simpl; [now rewrite IH | reflexivity].
Qed.

Lemma takeWhile_all p s : List.forallb p (takeWhile p s) = true.
Proof.
  induction s as [|c t IH]; simpl; [reflexivity|].
  destruct (p c) eqn:E; simpl; [now rewrite E | reflexivity].
Qed.

Lemma dropWhile_suffix p s :
  exists l, s = l ++ dropWhile p s /\ List.forallb p l = true.
Proof.
  exists (takeWhile p s).
  split; [symmetry; apply takeWhile_dropWhile | apply takeWhile_all].
Qed.

Lemma forallb_rev p (l : jsstring) : List.forallb p (List.rev l) = List.forallb p l.
Proof.
  induction l as [|c t IH]; simpl; [reflexivity|].
  rewrite List.forallb_app, IH. simpl. rewrite andb_true_r. apply andb_comm.
Qed.

Lemma starts_with_app_nonempty p (a b : jsstring) :
  a <> [] -> starts_with p (a ++ b) = starts_with p a.
Proof. destruct a; [congruence | reflexivity]. Qed.

Lemma trim_trimmed s : trimmed s (trim s).
Proof.
  unfold trimmed, trim.
  destruct (dropWhile_suffix is_ws s) as (l & Hs & Hl).
  set (a := dropWhile is_ws s) in *.
  destruct (dropWhile_suffix is_ws (List.rev a)) as (l2 & Ha & Hl2).
  set (b := dropWhile is_ws (List.rev a)) in *.
  assert (Ha' : a = List.rev b ++ List.rev l2).
  { rewrite <- List.rev_app_distr, <- Ha. symmetry. apply List.rev_involutive. }
  exists l, (List.rev l2). repeat split.
  - rewrite <- Ha'. exact Hs.
  - exact Hl.
  - rewrite forallb_rev. exact Hl2.
  - destruct b as [|c b'] eqn:Eb; [reflexivity|].
    rewrite <- (starts_with_app_nonempty is_ws (List.rev (c :: b')) (List.rev l2)).
    + rewrite <- Ha'. apply dropWhile_starts.
    + simpl. intros H. apply List.app_eq_nil in H. destruct H; discriminate.
  - unfold ends_with. rewrite List.rev_involutive. apply dropWhile_starts.
Qed.

Lemma trim_fixed t :
  starts_with is_ws t = false -> ends_with is_ws t = false -> trim t = t.
Proof.
  intros H1 H2. unfold trim. rewrite (dropWhile_fixed _ t H1).
  rewrite (dropWhile_fixed _ (List.rev t) H2). apply List.rev_involutive.
Qed.

Lemma trim_idempotent s : trim (trim s) = trim s.
Proof.
  destruct (trim_trimmed s) as (l & r & _ & _ & _ & H1 & H2).
  now apply trim_fixed.
Qed.

(** Newline runs *)

Lemma single_newlines_spec s :
  single_newlines s = true <-> ~ has_double_newline s.
Proof.
  induction s as [|a t IH].
  - simpl. split; [|reflexivity]. intros _ (l & r & H).
    destruct l; discriminate.
  - destruct t as [|b t'].
    + simpl. split; [|reflexivity]. intros _ (l & r & H).
      destruct l as [|x [|y l']]; discriminate.
    + change (single_newlines (a :: b :: t'))
        with (negb ((a =? nl) && (b =? nl)) && single_newlines (b :: t'))%bool.
      rewrite andb_true_iff, IH, negb_true_iff, andb_false_iff. split.
      * intros [Hab Ht] (l & r & H). destruct l as [|x l'].
        -- injection H as -> ->. destruct Hab as [Hab|Hab];
             rewrite N.eqb_refl in Hab; discriminate.
        -- injection H as -> H. apply Ht. now exists l', r.
      * intros Hn. split.
        -- destruct (a =? nl) eqn:Ea; [|now left]. destruct (b =? nl) eqn:Eb; [|now right].
           apply N.eqb_eq in Ea, Eb. subst. exfalso. apply Hn. now exists [], t'.
        -- intros (l & r & H). apply Hn. exists (a :: l), r. now rewrite H.
Qed.

Lemma collapseNewlines_head s :
  starts_with (fun c => c =? nl) (collapseNewlines s) = starts_with (fun c => c =? nl) s.
Proof.
  induction s as [|a t IH]; [reflexivity|].
  destruct t as [|b t']; [reflexivity|].
  change (collapseNewlines (a :: b :: t'))
    with (if (a =? nl) && (b =? nl) then collapseNewlines (b :: t')
          else a :: collapseNewlines (b :: t')).
  destruct (a =? nl) eqn:Ea; destruct (b =? nl) eqn:Eb; simpl andb; cbv iota.
  - rewrite IH. simpl. now rewrite Ea, Eb.
  - simpl. reflexivity.
  - simpl. reflexivity.
  - simpl. reflexivity.
Qed.

Lemma collapseNewlines_single s : single_newlines (collapseNewlines s) = true.
Proof.
  induction s as [|a t IH]; [reflexivity|].
  destruct t as [|b t']; [reflexivity|].
  change (collapseNewlines (a :: b :: t'))
    with (if (a =? nl) && (b =? nl) then collapseNewlines (b :: t')
          else a :: collapseNewlines (b :: t')).
  destruct ((a =? nl) && (b =? nl))%bool eqn:E; [exact IH|].
  pose proof (collapseNewlines_head (b :: t')) as Hh.
  destruct (collapseNewlines (b :: t')) as [|c u] eqn:Ec; [reflexivity|].
  change (single_newlines (a :: c :: u))
    with (negb ((a =? nl) && (c =? nl)) && single_newlines (c :: u))%bool.
  rewrite IH, andb_true_r. simpl in Hh. rewrite Hh, E. reflexivity.
Qed.

Lemma collapseNewlines_fixed s : single_newlines s = true -> collapseNewlines s = s.
Proof.
  induction s as [|a t IH]; [reflexivity|].
  destruct t as [|b t']; [reflexivity|].
  change (single_newlines (a :: b :: t'))
    with (negb ((a =? nl) && (b =? nl)) && single_newlines (b :: t'))%bool.
  change (collapseNewlines (a :: b :: t'))
    with (if (a =? nl) && (b =? nl) then collapseNewlines (b :: t')
          else a :: collapseNewlines (b :: t')).
  rewrite andb_true_iff, negb_true_iff. intros [-> Ht]. now rewrite IH.
Qed.

Lemma single_newlines_infix l t r :
  single_newlines (l ++ t ++ r) = true -> single_newlines t = true.
Proof.
  rewrite !single_newlines_spec. intros Hn (l' & r' & H). apply Hn.
  exists (l ++ l'), (r' ++ r). rewrite H, <- !List.app_assoc. reflexivity.
Qed.

Lemma trim_single_newlines s :
  single_newlines s = true -> single_newlines (trim s) = true.
Proof.
  destruct (trim_trimmed s) as (l & r & Hs & _). intros H.
  rewrite Hs in H. now apply single_newlines_infix in H.
Qed.

End StringFacts.

(** ** The preprocessor *)

Lemma preProcess_twice (x : jsstring) : preProcess (preProcess x) = preProcess x.
Proof.
  unfold preProcess.
  rewrite (collapseNewlines_fixed (trim (collapseNewlines x))).
  - apply trim_idempotent.
  - apply trim_single_newlines, collapseNewlines_single.
Qed.

(** C5: preprocessing (collapse every run of two or more newlines into one,
    then trim) is idempotent: preprocessing a preprocessed text changes
    nothing. *)
Theorem preProcess_idempotent (x : jsstring) :
  preProcess (preProcess x) = preProcess x.
Proof. apply preProcess_twice. Qed.

Lemma preProcessDocuments_idempotent (documents : list Document) :
  preProcessDocuments (preProcessDocuments documents) = preProcessDocuments documents.
Proof.
  unfold preProcessDocuments. rewrite List.map_map. apply List.map_ext.
  intros d. simpl. now rewrite preProcess_twice.
Qed.

(** ** The question parser *)

Section ParserFacts.

Lemma split_nonempty sep s : split sep s <> [].
Proof.
  destruct s as [|c t]; simpl; [discriminate|].
  destruct (c =? sep); [discriminate|]. destruct (split sep t); discriminate.
Qed.

Lemma split_no_sep sep s : Forall (fun seg => ~ In sep seg) (split sep s).
Proof.
  induction s as [|c t IH]; simpl.
  - constructor; [intros []|constructor].
  - destruct (c =? sep) eqn:E.
    + constructor; [intros []|exact IH].
    + destruct (split sep t) as [|seg segs]; [repeat constructor|].
      * intros [H|[]]. subst. rewrite N.eqb_refl in E. discriminate.
      * inversion IH as [|? ? Hseg Hsegs]; subst. constructor; [|exact Hsegs].
        intros [H|H]; [|now apply Hseg]. subst. rewrite N.eqb_refl in E. discriminate.
Qed.

Lemma split_join sep s : join [sep] (split sep s) = s.
Proof.
  induction s as [|c t IH]; [reflexivity|]. simpl.
  pose proof (split_nonempty sep t) as Hne.
  destruct (c =? sep) eqn:E.
  - apply N.eqb_eq in E. subst c.
    destruct (split sep t) as [|seg segs]; [congruence|].
    change (join [sep] ([] :: seg :: segs)) with ([] ++ [sep] ++ join [sep] (seg :: segs)).
    now rewrite IH.
  - destruct (split sep t) as [|seg segs]; [congruence|].
    destruct segs as [|seg2 segs'].
    + simpl in *. now rewrite IH.
    + change (join [sep] ((c :: seg) :: seg2 :: segs'))
        with (c :: (seg ++ [sep] ++ join [sep] (seg2 :: segs'))).
      change (join [sep] (seg :: seg2 :: segs'))
        with (seg ++ [sep] ++ join [sep] (seg2 :: segs')) in IH.
      now rewrite IH.
Qed.

Lemma no_newline_single s : ~ In nl s -> single_newlines s = true.
Proof.
  intros Hn. apply single_newlines_spec. intros (l & r & H). apply Hn.
  rewrite H. apply List.in_or_app. right. now left.
Qed.

Lemma dropWhile_incl p s x : In x (dropWhile p s) -> In x s.
Proof.
  destruct (dropWhile_suffix p s) as (l & H & _). intros Hx.
  rewrite H. apply List.in_or_app. now right.
Qed.

Lemma trim_incl s x : In x (trim s) -> In x s.
Proof.
  destruct (trim_trimmed s) as (l & r & H & _). intros Hx. rewrite H.
  apply List.in_or_app. right. apply List.in_or_app. now left.
Qed.

Lemma stripEnumeration_incl s x : In x (stripEnumeration s) -> In x s.
Proof.
  unfold stripEnumeration.
  destruct (takeWhile is_digit s) as [|d ds] eqn:Et; [trivial|].
  destruct (dropWhile is_digit s) as [|c r] eqn:Ed; [trivial|].
  destruct ((c =? 46) && _)%bool; [|trivial].
  intros Hx. apply dropWhile_incl in Hx.
  rewrite <- (takeWhile_dropWhile is_digit s), Ed.
  apply List.in_or_app. right. now right.
Qed.

Lemma stripEnumeration_no_digit s :
  starts_with is_digit s = false -> stripEnumeration s = s.
Proof.
  unfold stripEnumeration. destruct s as [|c t]; [reflexivity|].
  simpl. now intros ->.
Qed.

Lemma forallb_starts p (l : jsstring) :
  l <> [] -> List.forallb p l = true -> starts_with p l = true.
Proof.
  destruct l as [|c t]; [congruence|]. simpl. intros _ H.
  now apply andb_true_iff in H.
Qed.

Lemma takeWhile_prefix p (l r : jsstring) :
  List.forallb p l = true -> starts_with p r = false ->
  takeWhile p (l ++ r) = l /\ dropWhile p (l ++ r) = r.
Proof.
  induction l as [|c t IH]; simpl; intros Hl Hr.
  - destruct r as [|x r']; [now split|]. simpl in *. now rewrite Hr.
  - apply andb_true_iff in Hl. destruct Hl as [Hc Ht]. rewrite Hc.
    destruct (IH Ht Hr) as [-> ->]. now split.
Qed.

Lemma is_digit_not_dot c : is_digit c = true -> (c =? 46) = false.
Proof.
  unfold is_digit. rewrite andb_true_iff, !N.leb_le, N.eqb_neq. lia.
Qed.

Lemma is_ws_not_digit c : is_ws c = true -> is_digit c = false.
Proof.
  unfold is_ws, is_digit.
  rewrite !orb_true_iff, !andb_true_iff, !N.eqb_eq, !N.leb_le, andb_false_iff, !N.leb_gt.
  lia.
Qed.

(** The stripping done by the code is the stripping of the description. *)
Lemma stripEnumeration_markerStripped s : markerStripped s (stripEnumeration s).
Proof.
  unfold stripEnumeration.
  pose proof (takeWhile_dropWhile is_digit s) as Hs.
  pose proof (takeWhile_all is_digit s) as Hds.
  pose proof (dropWhile_starts is_digit s) as Hnd.
  assert (Hno : forall m r, isMarker m -> s = m ++ r ->
            exists c' r', takeWhile is_digit s <> [] /\ dropWhile is_digit s = c' :: r'
                          /\ c' = 46 /\ starts_with is_ws r' = true).
  { intros m r (ds & ws & -> & Hne & Hd & Hwne & Hw) Heq.
    rewrite <- List.app_assoc in Heq. simpl in Heq.
    destruct (takeWhile_prefix is_digit ds (46 :: ws ++ r) Hd eq_refl) as [E1 E2].
    rewrite <- Heq in E1, E2. exists 46, (ws ++ r).
    rewrite E1, E2. repeat split; [exact Hne|].
    rewrite starts_with_app_nonempty by exact Hwne. now apply forallb_starts. }
  destruct (takeWhile is_digit s) as [|d ds] eqn:Et.
  { right. split; [reflexivity|]. intros m r Hm Heq.
    destruct (Hno m r Hm Heq) as (? & ? & Hne & _). congruence. }
  destruct (dropWhile is_digit s) as [|c r] eqn:Ed.
  { right. split; [reflexivity|]. intros m r Hm Heq.
    destruct (Hno m r Hm Heq) as (? & ? & _ & Hd & _). discriminate. }
  destruct (c =? 46) eqn:Ec; simpl andb.
  2:{ right. split; [reflexivity|]. intros m r0 Hm Heq.
      destruct (Hno m r0 Hm Heq) as (c' & r' & _ & Hd & Hc' & _).
      injection Hd as Hcc _. rewrite Hcc, Hc' in Ec. discriminate. }
  apply N.eqb_eq in Ec. subst c.
  destruct (starts_with is_ws r) eqn:Ew.
  2:{ assert (Hm : match r with [] => false | w :: _ => is_ws w end = false)
        by (destruct r; exact Ew).
      rewrite Hm. right. split; [reflexivity|]. intros m r0 Hmk Heq.
      destruct (Hno m r0 Hmk Heq) as (? & ? & _ & Hd & _ & Hw).
      injection Hd as <-. congruence. }
  assert (Hm : match r with [] => false | w :: _ => is_ws w end = true)
    by (destruct r; exact Ew).
  rewrite Hm. left.
  exists ((d :: ds) ++ 46 :: takeWhile is_ws r). split; [|split].
  - exists (d :: ds), (takeWhile is_ws r). repeat split.
    + discriminate.
    + exact Hds.
    + destruct r as [|w r']; [discriminate|]. simpl in *. rewrite Ew. discriminate.
    + apply takeWhile_all.
  - rewrite <- Hs, <- List.app_assoc. simpl.
    now rewrite takeWhile_dropWhile.
  - apply dropWhile_starts.
Qed.

End ParserFacts.

Lemma cleanQuestion_segment seg :
  ~ In nl seg -> cleanQuestion seg = stripEnumeration (trim seg).
Proof.
  intros Hn. unfold cleanQuestion. rewrite collapseNewlines_fixed; [reflexivity|].
  apply no_newline_single. intros H. apply Hn. now apply trim_incl.
Qed.

Lemma cleanQuestion_described segs :
  Forall (fun seg => ~ In nl seg) segs ->
  Forall2 (fun seg q => exists t, trimmed seg t /\ markerStripped t q)
    segs (List.map cleanQuestion segs).
Proof.
  induction 1 as [|seg segs Hseg _ IH]; simpl; constructor; [|exact IH].
  exists (trim seg). split; [apply trim_trimmed|].
  rewrite cleanQuestion_segment by exact Hseg. apply stripEnumeration_markerStripped.
Qed.

(** C4: the question parser splits the completion on newlines, trims every
    segment, strips a leading marker of digits, a dot and whitespace, and
    drops the segments that end up empty.  The numbered example yields its
    two questions, the blank example yields nothing, and a completion whose
    segments carry no leading numerals passes through trimmed. *)
Theorem parseQuestions_described :
  (forall raw : jsstring,
      join [nl] (split nl raw) = raw
      /\ Forall (fun seg => ~ In nl seg) (split nl raw)
      /\ exists cleaned,
          Forall2 (fun seg q => exists t, trimmed seg t /\ markerStripped t q)
            (split nl raw) cleaned
          /\ parseQuestions raw
             = List.filter (fun q => (0 <? length q)%nat) cleaned)
  /\ parseQuestions numberedCompletion = [js "What is X?"; js "Why Y?"]
  /\ parseQuestions blankCompletion = []
  /\ (forall raw : jsstring,
        Forall (fun seg => starts_with is_digit (trim seg) = false) (split nl raw) ->
        parseQuestions raw
        = List.filter (fun q => (0 <? length q)%nat) (List.map trim (split nl raw))).
Proof.
  split; [|split; [|split]].
  - intros raw. split; [apply split_join|]. split; [apply split_no_sep|].
    exists (List.map cleanQuestion (split nl raw)). split; [|reflexivity].
    apply cleanQuestion_described, split_no_sep.
  - reflexivity.
  - reflexivity.
  - intros raw Hnum. unfold parseQuestions. f_equal.
    pose proof (split_no_sep nl raw) as Hnl.
    induction (split nl raw) as [|seg segs IH]; [reflexivity|].
    inversion Hnum; inversion Hnl; subst. simpl. f_equal; [|now apply IH].
    rewrite cleanQuestion_segment by assumption.
    now apply stripEnumeration_no_digit.
Qed.

Lemma parseQuestions_described_witness :
  parseQuestions (js "  Why Y?  ") = [js "Why Y?"].
Proof.
  rewrite (proj2 (proj2 (proj2 parseQuestions_described)) (js "  Why Y?  ")).
  - reflexivity.
  - repeat constructor.
Defined.

(** C10: no question returned by the parser contains a newline. *)
Theorem parseQuestions_no_newline (raw : jsstring) :
  Forall (fun question => ~ In nl question) (parseQuestions raw).
Proof.
  unfold parseQuestions. apply List.Forall_forall. intros q Hq.
  apply List.filter_In in Hq. destruct Hq as [Hq _].
  apply List.in_map_iff in Hq. destruct Hq as (seg & <- & Hseg).
  pose proof (split_no_sep nl raw) as Hnl.
  rewrite List.Forall_forall in Hnl. specialize (Hnl seg Hseg).
  rewrite cleanQuestion_segment by exact Hnl.
  intros H. apply Hnl. apply trim_incl. now apply stripEnumeration_incl.
Qed.

(** ** The prompt *)

Lemma template_placeholders :
  PROMPT_TEMPLATE = substitutedPrompt (js "{document}") (js "{numQuestions}").
Proof. reflexivity. Qed.

Lemma replace_absent pattern replacement s :
  breakOn pattern s = None -> replace pattern replacement s = s.
Proof. unfold replace. now intros ->. Qed.

(** C1: the prompt keeps the placeholder of the question count.  The second
    replacement looks for [{questions}], the template says [{numQuestions}]:
    for the sample document the prompt is the same for every target and the
    target is not in it. *)
Theorem buildPrompt_ignores_target :
  (forall n : Number,
      buildPrompt catDocument n
      = substitutedPrompt (js "Cats purr.") (js "{numQuestions}"))
  /\ buildPrompt catDocument (Int 3)
     <> substitutedPrompt (js "Cats purr.") (Number_toString (Int 3)).
Proof.
  assert (H : forall n, buildPrompt catDocument n
                        = substitutedPrompt (js "Cats purr.") (js "{numQuestions}")).
  { intros n. unfold buildPrompt. rewrite replace_absent; reflexivity. }
  split; [exact H|]. rewrite H. vm_compute. discriminate.
Qed.

(** The text of a document is read as a replacement pattern: a dollar
    followed by an ampersand brings the placeholder back. *)
Example buildPrompt_dollar_pattern :
  buildPrompt {| pageContent := js "$&"; metadata := [] |} (Int 3)
  = substitutedPrompt (js "{document}") (js "{numQuestions}").
Proof. reflexivity. Qed.

(** ** The batch runner *)

Section RunnerFacts.

Variable openai : jsstring -> option jsstring.
Variable documents : list Document.
Variable questionsPerDocument : Number.







End RunnerFacts.








(** ** Ingestion *)

Section IngestionFacts.

Variable tmpdir : jsstring.
Variable resolve : jsstring -> jsstring -> jsstring.
Variable directory : jsstring -> Directory.
Variable loader : jsstring -> option (list Document).

Lemma filter_cache_effects_load (effects : list Effect) path :
  List.filter isCacheEffect (effects ++ [Load path]) = List.filter isCacheEffect effects.
Proof. rewrite List.filter_app. simpl. apply List.app_nil_r. Qed.




End IngestionFacts.

(** C9: with caching off, ingestion asks only the loader: it returns the
    loaded and preprocessed documents (or fails as the loader does), the
    fingerprint is not computed, no cache file is read or written, and the
    cache files are what they were. *)
Theorem loadDocuments_cache_disabled
    (tmpdir : jsstring) (resolve : jsstring -> jsstring -> jsstring)
    (directory : jsstring -> Directory) (loader : jsstring -> option (list Document))
    (path : jsstring) (world : World) :
  let run := loadDocuments tmpdir resolve directory loader path false world in
  fst run = match loader path with
            | Some documents => Returns (documentsValue (preProcessDocuments documents))
            | None => Throws
            end
  /\ tmpFiles (snd run) = tmpFiles world
  /\ trace (snd run) = trace world ++ [Load path]
  /\ List.filter isCacheEffect (trace (snd run)) = List.filter isCacheEffect (trace world).
Proof.
  unfold loadDocuments, loadAndPreProcess. simpl.
  repeat split.
  - now destruct (loader path).
  - apply filter_cache_effects_load.
Qed.



(** ** Numbers as text *)

Section NumberFacts.

Lemma uintDigits_digits u : List.forallb is_digit (uintDigits u) = true.
Proof. induction u; simpl; auto. Qed.



Lemma decimal_digits n : List.forallb is_digit (decimal n) = true.
Proof. apply uintDigits_digits. Qed.

Lemma to_uint_nonnil n : N.to_uint n <> Decimal.Nil.
Proof.
  destruct n as [|p]; [discriminate|]. apply DecimalPos.Unsigned.to_uint_nonnil.
Qed.

Lemma decimal_nonempty n : decimal n <> [].
Proof.
  unfold decimal. pose proof (to_uint_nonnil n) as H.
  destruct (N.to_uint n); simpl; congruence.
Qed.



End NumberFacts.

(** ** The fingerprint *)

Section FingerprintFacts.




End FingerprintFacts.




(** ** UTF-8 *)

(** Quotients and remainders by constants are left to [lia]. *)
Ltac Zify.zify_post_hook ::= Z.to_euclidean_division_equations.

Section Utf8Facts.














End Utf8Facts.

(** ** JSON: strings and numbers *)

Section JsonTextFacts.








(** Digits *)









End JsonTextFacts.

(** ** JSON: values *)

Section JsonValueFacts.

Local Arguments join : simpl never.

Lemma parseValue_S fuel s :
  parseValue (S fuel) s
  = match skipWhitespace s with
    | [] => Throws
    | c :: t =>
        if c =? 110 then expect (js "ull") VNull t
        else if c =? 116 then expect (js "rue") (VBool true) t
        else if c =? 102 then expect (js "alse") (VBool false) t
        else if c =? 34 then
          '(text, rest) ← parseStringBody t; Returns (VString text, rest)
        else if c =? 91 then
          if starts_with (fun c => c =? 93) (skipWhitespace t)
          then Returns (VArray [], List.tl (skipWhitespace t))
          else '(items, rest) ← parseItems fuel t; Returns (VArray items, rest)
        else if c =? 123 then
          if starts_with (fun c => c =? 125) (skipWhitespace t)
          then Returns (VObject [], List.tl (skipWhitespace t))
          else '(props, rest) ← parseMembers fuel [] t; Returns (VObject props, rest)
        else if (c =? 45) || is_digit c then parseNumber (c :: t)
        else Throws
    end.
Proof. reflexivity. Qed.

Lemma parseItems_S fuel s :
  parseItems (S fuel) s
  = '(v, rest) ← parseValue fuel s;
    match skipWhitespace rest with
    | [] => Throws
    | c :: t =>
        if c =? 44 then consParsed v (parseItems fuel t)
        else if c =? 93 then Returns ([v], t)
        else Throws
    end.
Proof. reflexivity. Qed.

Lemma parseMembers_S fuel props s :
  parseMembers (S fuel) props s
  = match skipWhitespace s with
    | [] => Throws
    | q :: t =>
        if q =? 34 then
          '(key, rest) ← parseStringBody t;
          match skipWhitespace rest with
          | [] => Throws
          | colon :: t2 =>
              if colon =? 58 then
                '(v, rest2) ← parseValue fuel t2;
                match skipWhitespace rest2 with
                | [] => Throws
                | c :: t3 =>
                    if c =? 44 then parseMembers fuel (setProperty key v props) t3
                    else if c =? 125 then Returns (setProperty key v props, t3)
                    else Throws
                end
              else Throws
          end
        else Throws
    end.
Proof. reflexivity. Qed.

Lemma bind_Returns {A B : Type} (a : A) (k : A -> Result B) :
  (Returns a ≫= k) = k a.
Proof. reflexivity. Qed.


Lemma opens_plain c :
  opens c = true ->
  isJsonWhitespace c = false /\ (c =? 93) = false /\ (c =? 125) = false.
Proof.
  unfold opens, isJsonWhitespace, is_digit.
  rewrite !orb_true_iff, !andb_true_iff, !N.eqb_eq, !N.leb_le.
  rewrite !orb_false_iff, !N.eqb_neq. lia.
Qed.

Lemma textOf_opens v :
  jsonSafe v = true -> exists c t, textOf v = c :: t /\ opens c = true.
Proof.
  unfold textOf. destruct v as [| |[|]|[|z]|s|items|props]; simpl; try discriminate;
    intros _; try (eexists _, _; split; [reflexivity | reflexivity]).
  destruct (z <? 0)%Z.
  - eexists _, _. split; reflexivity.
  - pose proof (decimal_digits (Z.abs_N z)) as Hd.
    pose proof (decimal_nonempty (Z.abs_N z)) as Hne.
    destruct (decimal (Z.abs_N z)) as [|c t]; [congruence|].
    exists c, t. split; [reflexivity|].
    simpl in Hd. apply andb_true_iff in Hd. destruct Hd as [Hc _].
    unfold opens. rewrite Hc. now rewrite !orb_true_r.
Qed.

Lemma skipWhitespace_opens c t :
  opens c = true -> skipWhitespace (c :: t) = c :: t.
Proof.
  intros H. destruct (opens_plain c H) as [Hw _].
  unfold skipWhitespace. simpl. now rewrite Hw.
Qed.

Lemma skipWhitespace_textOf v rest :
  jsonSafe v = true -> skipWhitespace (textOf v ++ rest) = textOf v ++ rest.
Proof.
  intros Hs. destruct (textOf_opens v Hs) as (c & t & -> & Hc).
  now apply skipWhitespace_opens.
Qed.

Lemma closes_plain c t :
  closes (c :: t) = true -> skipWhitespace (c :: t) = c :: t.
Proof.
  simpl. rewrite !orb_true_iff, !N.eqb_eq. intros H.
  unfold skipWhitespace. simpl. unfold isJsonWhitespace.
  destruct H as [[->| ->]| ->]; reflexivity.
Qed.



End JsonValueFacts.

Section JsonObjectFacts.

Local Arguments join : simpl never.












End JsonObjectFacts.

(** ** JSON: the fuel of the parser is enough *)

Section JsonFuelFacts.

Lemma dropWhile_length p s : (length (dropWhile p s) <= length s)%nat.
Proof.
  induction s as [|c t IH]; simpl; [lia|]. destruct (p c); simpl; lia.
Qed.

Lemma skipWhitespace_length s : (length (skipWhitespace s) <= length s)%nat.
Proof. apply dropWhile_length. Qed.

Lemma stripPrefix_length p s rest :
  stripPrefix p s = Some rest -> (length rest <= length s)%nat.
Proof.
  revert s. induction p as [|a p IH]; intros s H.
  - simpl in H. injection H as <-. lia.
  - destruct s as [|b s]; [discriminate|]. simpl in H.
    destruct (a =? b); [|discriminate]. apply IH in H. simpl. lia.
Qed.

Lemma expect_length word v s r :
  expect word v s = Returns r -> (length (snd r) <= length s)%nat.
Proof.
  unfold expect. destruct (stripPrefix word s) as [rest|] eqn:E; [|discriminate].
  intros H. injection H as <-. simpl. now apply stripPrefix_length in E.
Qed.

Lemma consParsed_Returns {A : Type} (a : A) r l rest :
  consParsed a r = Returns (l, rest) ->
  exists l', r = Returns (l', rest) /\ l = a :: l'.
Proof.
  unfold consParsed. destruct r as [[l' rest']| |]; simpl; try discriminate.
  intros H. injection H as <- <-. now exists l'.
Qed.

Lemma parseStringBody_length_bounded n s text rest :
  (length s <= n)%nat ->
  parseStringBody s = Returns (text, rest) -> (length rest < length s)%nat.
Proof.
  revert s text. induction n as [|n IH]; intros s text Hn H.
  { destruct s; [discriminate | simpl in Hn; lia]. }
  destruct s as [|c t]; [discriminate|]. simpl in H.
  destruct (c =? 34).
  { injection H as _ <-. simpl. lia. }
  destruct (c =? 92).
  - destruct t as [|e t']; [discriminate|].
    destruct (e =? 117).
    + destruct t' as [|h1 [|h2 [|h3 [|h4 t'']]]]; try discriminate.
      destruct (hexValue h1), (hexValue h2), (hexValue h3), (hexValue h4);
        try discriminate.
      apply consParsed_Returns in H. destruct H as (l' & H & _).
      apply IH in H; simpl in *; lia.
    + destruct (unescape e); [|discriminate].
      apply consParsed_Returns in H. destruct H as (l' & H & _).
      apply IH in H; simpl in *; lia.
  - destruct (c <? 32); [discriminate|].
    apply consParsed_Returns in H. destruct H as (l' & H & _).
    apply IH in H; simpl in *; lia.
Qed.

Lemma parseStringBody_length s text rest :
  parseStringBody s = Returns (text, rest) -> (length rest < length s)%nat.
Proof. apply (parseStringBody_length_bounded (length s)). lia. Qed.

Lemma integerPart_length s digits rest :
  integerPart s = (digits, rest) -> digits <> [] -> (length rest < length s)%nat.
Proof.
  unfold integerPart.
  destruct s as [|c t]; [intros H Hne; injection H as Hd _; congruence|].
  destruct (c =? 48).
  - intros H _. injection H as _ <-. simpl. lia.
  - intros H Hne. injection H as <- <-. simpl in *.
    destruct (is_digit c); [|congruence].
    pose proof (dropWhile_length is_digit t). simpl. lia.
Qed.

Lemma parseUnsigned_length negative s v rest :
  parseUnsigned negative s = Returns (v, rest) -> (length rest < length s)%nat.
Proof.
  unfold parseUnsigned. destruct (integerPart s) as [digits rest'] eqn:E.
  destruct digits as [|d ds]; [discriminate|].
  destruct (starts_with _ rest'); [discriminate|].
  destruct (negative && _); [discriminate|].
  destruct (_ <? _); [discriminate|].
  intros H. injection H as _ <-. eapply integerPart_length; [exact E | discriminate].
Qed.

Lemma parseNumber_length s v rest :
  parseNumber s = Returns (v, rest) -> (length rest < length s)%nat.
Proof.
  unfold parseNumber. destruct s as [|c t]; [discriminate|].
  destruct (c =? 45); intros H; apply parseUnsigned_length in H; simpl in *; lia.
Qed.

Lemma bind_Returns_inv {A B : Type} (r : Result A) (k : A -> Result B) b :
  (r ≫= k) = Returns b -> exists a, r = Returns a /\ k a = Returns b.
Proof. destruct r as [a| |]; try discriminate. intros H. now exists a. Qed.

(** What is left after a value, a run of items or of members is shorter
    than what was there. *)
Lemma parse_length fuel :
  (forall s v rest, parseValue fuel s = Returns (v, rest) ->
                    (length rest < length s)%nat)
  /\ (forall s items rest, parseItems fuel s = Returns (items, rest) ->
                           (length rest < length s)%nat)
  /\ (forall acc s props rest, parseMembers fuel acc s = Returns (props, rest) ->
                               (length rest < length s)%nat).
Proof.
  induction fuel as [|fuel (IHv & IHi & IHm)].
  { repeat split; intros; discriminate. }
  split; [|split].
  - intros s v rest. rewrite parseValue_S.
    pose proof (skipWhitespace_length s) as Hs.
    destruct (skipWhitespace s) as [|c t]; [discriminate|]. simpl in Hs.
    destruct (c =? 110); [intros H; apply expect_length in H; simpl in H; lia|].
    destruct (c =? 116); [intros H; apply expect_length in H; simpl in H; lia|].
    destruct (c =? 102); [intros H; apply expect_length in H; simpl in H; lia|].
    destruct (c =? 34).
    { intros H. apply bind_Returns_inv in H. destruct H as ([text r] & H & Hk).
      injection Hk as _ <-. apply parseStringBody_length in H. lia. }
    pose proof (skipWhitespace_length t) as Ht.
    destruct (c =? 91).
    { destruct (starts_with _ (skipWhitespace t)).
      - intros H. injection H as _ <-.
        destruct (skipWhitespace t); simpl in *; lia.
      - intros H. apply bind_Returns_inv in H. destruct H as ([items r] & H & Hk).
        injection Hk as _ <-. apply IHi in H. lia. }
    destruct (c =? 123).
    { destruct (starts_with _ (skipWhitespace t)).
      - intros H. injection H as _ <-.
        destruct (skipWhitespace t); simpl in *; lia.
      - intros H. apply bind_Returns_inv in H. destruct H as ([props r] & H & Hk).
        injection Hk as _ <-. apply IHm in H. lia. }
    destruct ((c =? 45) || is_digit c); [|discriminate].
    intros H. apply parseNumber_length in H. simpl in H. lia.
  - intros s items rest. rewrite parseItems_S. intros H.
    apply bind_Returns_inv in H. destruct H as ([v r] & Hv & Hk).
    apply IHv in Hv. pose proof (skipWhitespace_length r) as Hr.
    destruct (skipWhitespace r) as [|c t]; [discriminate|]. simpl in Hr.
    destruct (c =? 44).
    + apply consParsed_Returns in Hk. destruct Hk as (l' & Hk & _).
      apply IHi in Hk. lia.
    + destruct (c =? 93); [|discriminate]. injection Hk as _ <-. lia.
  - intros acc s props rest. rewrite parseMembers_S.
    pose proof (skipWhitespace_length s) as Hs.
    destruct (skipWhitespace s) as [|q t]; [discriminate|]. simpl in Hs.
    destruct (q =? 34); [|discriminate]. intros H.
    apply bind_Returns_inv in H. destruct H as ([key r] & Hkey & H).
    apply parseStringBody_length in Hkey.
    pose proof (skipWhitespace_length r) as Hr.
    destruct (skipWhitespace r) as [|colon t2]; [discriminate|]. simpl in Hr.
    destruct (colon =? 58); [|discriminate].
    apply bind_Returns_inv in H. destruct H as ([v r2] & Hv & H).
    apply IHv in Hv. pose proof (skipWhitespace_length r2) as Hr2.
    destruct (skipWhitespace r2) as [|c t3]; [discriminate|]. simpl in Hr2.
    destruct (c =? 44).
    + apply IHm in H. lia.
    + destruct (c =? 125); [|discriminate]. injection H as _ <-. lia.
Qed.

(** Beyond twice the length of the text more fuel changes nothing. *)
Lemma parse_fuel_step fuel :
  (forall s, (2 * length s + 1 <= fuel)%nat ->
             parseValue (S fuel) s = parseValue fuel s)
  /\ (forall s, (2 * length s + 2 <= fuel)%nat ->
                parseItems (S fuel) s = parseItems fuel s)
  /\ (forall acc s, (2 * length s + 2 <= fuel)%nat ->
                    parseMembers (S fuel) acc s = parseMembers fuel acc s).
Proof.
  induction fuel as [|fuel (IHv & IHi & IHm)].
  { repeat split; intros; lia. }
  split; [|split].
  - intros s Hf. rewrite !parseValue_S.
    pose proof (skipWhitespace_length s) as Hs.
    destruct (skipWhitespace s) as [|c t]; [reflexivity|]. simpl in Hs.
    pose proof (skipWhitespace_length t) as Ht.
    rewrite IHi by lia. rewrite IHm by lia. reflexivity.
  - intros s Hf. rewrite !(parseItems_S _ s). rewrite IHv by lia.
    destruct (parseValue fuel s) as [[v r]| |] eqn:E; try reflexivity.
    rewrite !bind_Returns.
    destruct (parse_length fuel) as (Hlen & _). apply Hlen in E.
    pose proof (skipWhitespace_length r) as Hr.
    destruct (skipWhitespace r) as [|c t]; [reflexivity|]. simpl in Hr.
    rewrite IHi by lia. reflexivity.
  - intros acc s Hf. rewrite !(parseMembers_S _ acc s).
    pose proof (skipWhitespace_length s) as Hs.
    destruct (skipWhitespace s) as [|q t]; [reflexivity|]. simpl in Hs.
    destruct (q =? 34); [|reflexivity].
    destruct (parseStringBody t) as [[key r]| |] eqn:Ekey; try reflexivity.
    rewrite !bind_Returns. apply parseStringBody_length in Ekey.
    pose proof (skipWhitespace_length r) as Hr.
    destruct (skipWhitespace r) as [|colon t2]; [reflexivity|]. simpl in Hr.
    destruct (colon =? 58); [|reflexivity].
    rewrite IHv by lia.
    destruct (parseValue fuel t2) as [[v r2]| |] eqn:E; try reflexivity.
    rewrite !bind_Returns.
    destruct (parse_length fuel) as (Hlen & _). apply Hlen in E.
    pose proof (skipWhitespace_length r2) as Hr2.
    destruct (skipWhitespace r2) as [|c t3]; [reflexivity|]. simpl in Hr2.
    rewrite IHm by lia. reflexivity.
Qed.

(** [JSON_parse] gives its parser all the fuel that matters. *)
Lemma parseValue_fuel text extra :
  parseValue (2 * length text + 2 + extra) text
  = parseValue (2 * length text + 2) text.
Proof.
  induction extra as [|extra IH].
  - f_equal. lia.
  - replace (2 * length text + 2 + S extra)%nat
      with (S (2 * length text + 2 + extra))%nat by lia.
    destruct (parse_fuel_step (2 * length text + 2 + extra)) as (Hv & _).
    rewrite Hv by lia. exact IH.
Qed.

End JsonFuelFacts.

(** ** JSON text is well-formed *)

Section WellFormedFacts.

Local Arguments join : simpl never.











End WellFormedFacts.

(** ** The cache *)


(** An entry that does not parse is overwritten by what is loaded. *)
Example loadDocuments_corrupt_entry :
  unusableEntry (js "/tmp") sampleResolve
    (fingerprint (sampleDirectory (js "./data"))) corruptWorld
  /\ fst (loadDocuments (js "/tmp") sampleResolve sampleDirectory sampleLoader
            (js "./data") true corruptWorld)
     = Returns (documentsValue
                  [{| pageContent := js "alpha" ++ [nl] ++ js "beta";
                      metadata := [(js "source", VString (js "a.txt"))] |}]).
Proof. split; vm_compute; reflexivity. Qed.




(** * Further properties *)

(** ** The preprocessor *)

Lemma preProcess_normal x : normalText (preProcess x) = true.
Proof.
  unfold normalText, preProcess.
  destruct (trim_trimmed (collapseNewlines x)) as (l & r & _ & _ & _ & H1 & H2).
  rewrite H1, H2, trim_single_newlines; [reflexivity|].
  apply collapseNewlines_single.
Qed.

Lemma normalText_fixed x : normalText x = true -> preProcess x = x.
Proof.
  unfold normalText, preProcess. rewrite !andb_true_iff, !negb_true_iff.
  intros [[Hs H1] H2]. rewrite collapseNewlines_fixed by exact Hs.
  now apply trim_fixed.
Qed.

(** X1: preprocessing keeps the number, the order and the metadata of the
    documents, and every text it returns has no two newlines in a row and no
    whitespace at its start or end. *)
Theorem preProcessDocuments_shape (documents : list Document) :
  length (preProcessDocuments documents) = length documents
  /\ List.map metadata (preProcessDocuments documents) = List.map metadata documents
  /\ Forall (fun document => normalText (pageContent document) = true)
       (preProcessDocuments documents).
Proof.
  unfold preProcessDocuments. split; [apply List.length_map|]. split.
  - rewrite List.map_map. reflexivity.
  - apply List.Forall_map. apply List.Forall_forall. intros d _. simpl.
    apply preProcess_normal.
Qed.

(** X2: the documents that preprocessing returns unchanged are exactly
    those whose texts are already in that form. *)
Theorem preProcessDocuments_fixed_points (documents : list Document) :
  preProcessDocuments documents = documents
  <-> Forall (fun document => normalText (pageContent document) = true) documents.
Proof.
  unfold preProcessDocuments. induction documents as [|d ds IH]; simpl.
  - split; [constructor | reflexivity].
  - split.
    + intros H. injection H as Hd Hds. constructor; [|now apply IH].
      destruct d as [content meta]. simpl in *. injection Hd as Hd.
      rewrite <- Hd. apply preProcess_normal.
    + intros H. inversion H as [|? ? Hd Hds]; subst. f_equal; [|now apply IH].
      destruct d as [content meta]. simpl in *. now rewrite normalText_fixed.
Qed.

(** ** The question parser *)

Lemma split_app_sep sep a b :
  split sep (a ++ sep :: b) = split sep a ++ split sep b.
Proof.
  induction a as [|c t IH]; simpl.
  - now rewrite N.eqb_refl.
  - destruct (c =? sep); [now rewrite IH|].
    rewrite IH. pose proof (split_nonempty sep t) as Hne.
    destruct (split sep t) as [|seg segs]; [congruence | reflexivity].
Qed.

(** X3: the parser works line by line: the questions of two completions
    joined by a newline are the questions of the first followed by the
    questions of the second. *)
Theorem parseQuestions_lines (a b : jsstring) :
  parseQuestions (a ++ nl :: b) = parseQuestions a ++ parseQuestions b.
Proof.
  unfold parseQuestions.
  now rewrite split_app_sep, List.map_app, List.filter_app.
Qed.

Lemma ends_with_suffix p (l q : jsstring) :
  q <> [] -> ends_with p (l ++ q) = ends_with p q.
Proof.
  intros Hq. unfold ends_with. rewrite List.rev_app_distr.
  apply starts_with_app_nonempty. intros H.
  apply (f_equal (@List.rev N)) in H. rewrite List.rev_involutive in H. now subst.
Qed.

Lemma split_count sep s :
  length (split sep s) = S (List.count_occ N.eq_dec s sep).
Proof.
  induction s as [|c t IH]; [reflexivity|]. simpl.
  destruct (N.eqb_spec c sep) as [->|Hne].
  - destruct (N.eq_dec sep sep); [|congruence]. simpl. now rewrite IH.
  - destruct (N.eq_dec c sep); [congruence|].
    pose proof (split_nonempty sep t) as Hn.
    destruct (split sep t) as [|seg segs]; [congruence|]. exact IH.
Qed.

(** X4: every question the parser returns is non-empty and neither starts
    nor ends with whitespace, and there are at most as many questions as the
    completion has lines. *)
Theorem parseQuestions_clean (raw : jsstring) :
  Forall (fun question =>
            question <> [] /\ starts_with is_ws question = false
            /\ ends_with is_ws question = false) (parseQuestions raw)
  /\ (length (parseQuestions raw) <= S (List.count_occ N.eq_dec raw nl))%nat.
Proof.
  split.
  - unfold parseQuestions. apply List.Forall_forall. intros q Hq.
    apply List.filter_In in Hq. destruct Hq as [Hq Hlen].
    assert (Hne : q <> []) by (destruct q; [discriminate | discriminate]).
    split; [exact Hne|].
    apply List.in_map_iff in Hq. destruct Hq as (seg & Hclean & Hseg).
    pose proof (split_no_sep nl raw) as Hnl. rewrite List.Forall_forall in Hnl.
    rewrite cleanQuestion_segment in Hclean by (apply Hnl, Hseg).
    destruct (trim_trimmed seg) as (l & r & _ & _ & _ & H1 & H2).
    destruct (stripEnumeration_markerStripped (trim seg))
      as [(m & _ & Heq & Hstart)|[Heq _]]; rewrite Hclean in Heq.
    + rewrite Hclean in Hstart. split; [exact Hstart|]. rewrite Heq in H2.
      now rewrite ends_with_suffix in H2.
    + rewrite Heq. split; assumption.
  - unfold parseQuestions. rewrite <- split_count.
    etransitivity; [apply List.filter_length_le|]. now rewrite List.length_map.
Qed.

(** ** The prompt *)

Lemma getSubstitution_plain matched before after template :
  ~ In dollar template ->
  getSubstitution matched before after template = template.
Proof.
  induction template as [|c t IH]; [reflexivity|]. intros Hn. simpl.
  destruct (N.eqb_spec c dollar) as [->|_].
  - exfalso. apply Hn. now left.
  - rewrite IH; [reflexivity|]. intros H. apply Hn. now right.
Qed.

Lemma stripPrefix_mismatch p0 p c t :
  c <> p0 -> stripPrefix (p0 :: p) (c :: t) = None.
Proof. intros H. simpl. now rewrite (proj2 (N.eqb_neq p0 c)) by congruence. Qed.

(** An occurrence of a pattern starts at the first character of the pattern. *)
Lemma breakOn_skip p0 p a b :
  ~ In p0 a ->
  breakOn (p0 :: p) (a ++ b)
  = match breakOn (p0 :: p) b with
    | Some (before, after) => Some (a ++ before, after)
    | None => None
    end.
Proof.
  induction a as [|c t IH]; intros Hn.
  - simpl List.app. destruct (breakOn (p0 :: p) b) as [[bf af]|]; reflexivity.
  - change ((c :: t) ++ b) with (c :: (t ++ b)).
    change (breakOn (p0 :: p) (c :: t ++ b))
      with (match stripPrefix (p0 :: p) (c :: t ++ b) with
            | Some rest => Some ([], rest)
            | None => match breakOn (p0 :: p) (t ++ b) with
                      | Some (before, after) => Some (c :: before, after)
                      | None => None
                      end
            end).
    rewrite stripPrefix_mismatch by (intros ->; apply Hn; now left).
    rewrite IH by (intros H; apply Hn; now right).
    destruct (breakOn (p0 :: p) b) as [[bf af]|]; reflexivity.
Qed.

Lemma plainText_spec s :
  plainText s = true -> ~ In dollar s /\ ~ In 123 s.
Proof.
  unfold plainText. rewrite List.forallb_forall. intros H.
  split; intros Hin; apply H in Hin; vm_compute in Hin; discriminate.
Qed.

(** X5: for a document whose text has no dollar sign and no opening brace,
    the prompt is the template with the text in place of [{document}] and
    with [{numQuestions}] still in it, whatever the question target is. *)
Theorem buildPrompt_plain (document : Document) (questionsPerDocument : Number) :
  plainText (pageContent document) = true ->
  buildPrompt document questionsPerDocument
  = substitutedPrompt (pageContent document) (js "{numQuestions}").
Proof.
  intros Hplain. destruct (plainText_spec _ Hplain) as [Hd Hb].
  unfold buildPrompt.
  assert (H1 : replace (js "{document}") (pageContent document) PROMPT_TEMPLATE
               = substitutedPrompt (pageContent document) (js "{numQuestions}")).
  { unfold replace.
    change (breakOn (js "{document}") PROMPT_TEMPLATE)
      with (Some (templateBefore,
                  templateMiddle ++ js "{numQuestions}" ++ templateAfter)).
    cbv beta iota. rewrite getSubstitution_plain by exact Hd. reflexivity. }
  rewrite H1. apply replace_absent.
  unfold substitutedPrompt. rewrite List.app_assoc.
  change (js "{questions}") with (123 :: js "questions}").
  rewrite breakOn_skip.
  - reflexivity.
  - intros Hin. apply List.in_app_or in Hin. destruct Hin as [Hin|Hin].
    + vm_compute in Hin. clear -Hin. intuition discriminate.
    + now apply Hb.
Qed.

Lemma buildPrompt_plain_witness :
  plainText (pageContent owlDocument) = true
  /\ buildPrompt owlDocument (Int 5)
     = substitutedPrompt (js "Owls hoot.") (js "{numQuestions}").
Proof.
  split; [reflexivity|]. apply (buildPrompt_plain owlDocument (Int 5)). reflexivity.
Defined.

(** ** The hash and the fingerprint *)

Section HashFacts.

Lemma littleEndian_length count x : length (MD5.littleEndian count x) = count.
Proof.
  revert x. induction count as [|k IH]; intros x; simpl; [reflexivity|].
  now rewrite IH.
Qed.

Lemma littleEndian_bytes count x :
  Forall (fun b => b < 256) (MD5.littleEndian count x).
Proof.
  revert x. induction count as [|k IH]; intros x; simpl; constructor.
  - apply N.mod_lt. discriminate.
  - apply IH.
Qed.

Lemma digest_shape message :
  length (MD5.digest message) = 16%nat
  /\ Forall (fun b => b < 256) (MD5.digest message).
Proof.
  unfold MD5.digest.
  destruct (List.fold_left MD5.compress _ MD5.initial) as [a b c d].
  split.
  - rewrite !List.length_app, !littleEndian_length. reflexivity.
  - repeat (apply List.Forall_app; split); apply littleEndian_bytes.
Qed.

Lemma hexDigit_lower d : d < 16 -> isLowerHex (hexDigit d) = true.
Proof.
  intros H. unfold isLowerHex, hexDigit, is_digit.
  destruct (N.ltb_spec d 10).
  - rewrite (proj2 (N.leb_le 48 (48 + d))), (proj2 (N.leb_le (48 + d) 57)) by lia.
    reflexivity.
  - rewrite (proj2 (N.leb_le 97 (87 + d))), (proj2 (N.leb_le (87 + d) 102)) by lia.
    apply orb_true_r.
Qed.

Lemma hex_shape bytes :
  Forall (fun b => b < 256) bytes ->
  length (hex bytes) = (2 * length bytes)%nat
  /\ List.forallb isLowerHex (hex bytes) = true.
Proof.
  unfold hex. induction 1 as [|b bs Hb _ [IH1 IH2]]; [split; reflexivity|].
  simpl. split; [rewrite IH1; lia|].
  rewrite !hexDigit_lower by lia. exact IH2.
Qed.

End HashFacts.

(** X6: the hash of any text is 32 characters long, each of them a digit or
    a letter from a to f; so is every directory fingerprint. *)
Theorem hash_shape (input : jsstring) :
  length (hash input) = 32%nat /\ List.forallb isLowerHex (hash input) = true.
Proof.
  unfold hash. destruct (digest_shape (utf8Encode input)) as [Hlen Hbytes].
  destruct (hex_shape _ Hbytes) as [H1 H2]. rewrite H1, Hlen. now split.
Qed.

Section ListingFacts.










End ListingFacts.



(** One file whose name holds a comma and a colon is hashed like two files. *)
Example listing_comma_clash :
  listing [{| filePath := js "a:1,b"; mtimeMs := 2; fileContent := [] |}]
  = listing [{| filePath := js "a"; mtimeMs := 1; fileContent := [] |};
             {| filePath := js "b"; mtimeMs := 2; fileContent := [] |}].
Proof. reflexivity. Qed.

(** ** The cache files *)

Section CacheFacts.

Variable tmpdir : jsstring.
Variable resolve : jsstring -> jsstring -> jsstring.
Variable directory : jsstring -> Directory.
Variable loader : jsstring -> option (list Document).


Lemma loadDocuments_hit_eq path world data cached :
  tmpFiles world !! cacheFile tmpdir resolve (fingerprint (directory path)) = Some data ->
  JSON_parse (Buffer_toString data) = cached ->
  cached <> Throws ->
  loadDocuments tmpdir resolve directory loader path true world
  = (cached, lookedUp tmpdir resolve directory path world).
Proof.
  intros Hfile Hparse Hne. unfold loadDocuments. simpl negb. cbv iota.
  unfold getDirectoryHash, getCached, readTMP. simpl.
  rewrite Hfile. simpl. rewrite Hparse.
  destruct cached; [reflexivity | congruence | reflexivity].
Qed.


(** What a run may do to the cache files: nothing, or write the entry of
    the fingerprint. *)
Lemma loadDocuments_files path cache world :
  let after := snd (loadDocuments tmpdir resolve directory loader path cache world) in
  tmpFiles after = tmpFiles world
  \/ exists data,
       tmpFiles after
       = <[cacheFile tmpdir resolve (fingerprint (directory path)) := data]>
           (tmpFiles world).
Proof.
  unfold loadDocuments. destruct cache; simpl negb; cbv iota.
  2:{ left. reflexivity. }
  unfold getDirectoryHash, getCached, readTMP. simpl.
  destruct (_ ≫= _) as [v| |]; simpl; [now left | | now left].
  unfold loadAndPreProcess. simpl.
  destruct (loader path) as [loaded|]; simpl; [|now left].
  unfold putCached.
  destruct (JSON_stringify _) as [text|]; simpl; [|now left].
  unfold cacheTMP. simpl.
  destruct (tmpWritable world); simpl; [right; eauto | now left].
Qed.

End CacheFacts.



(** ** Ingestion with the cache *)

(** X9: on a cache hit [loadDocuments] returns what the entry parses to as
    it is, without asking the loader and without writing: the cache files
    stay as they are, and the value is not checked to be a list of
    documents. *)
Theorem loadDocuments_hit
    (tmpdir : jsstring) (resolve : jsstring -> jsstring -> jsstring)
    (directory : jsstring -> Directory) (loader : jsstring -> option (list Document))
    (path : jsstring) (world : World) (data : list N) (cached : value) :
  tmpFiles world !! cacheFile tmpdir resolve (fingerprint (directory path)) = Some data ->
  JSON_parse (Buffer_toString data) = Returns cached ->
  let run := loadDocuments tmpdir resolve directory loader path true world in
  fst run = Returns cached
  /\ tmpFiles (snd run) = tmpFiles world
  /\ trace (snd run)
     = trace world
       ++ Glob path
          :: List.map (fun file => Stat (resolve path (filePath file))) (directory path)
       ++ [ReadFile (cacheFile tmpdir resolve (fingerprint (directory path)))].
Proof.
  intros Hfile Hparse run. unfold run.
  rewrite (loadDocuments_hit_eq tmpdir resolve directory loader path world data
             (Returns cached) Hfile Hparse) by discriminate.
  unfold lookedUp, getDirectoryHash, record. simpl.
  repeat split. now rewrite <- List.app_assoc.
Qed.

Lemma loadDocuments_hit_witness :
  fst (loadDocuments (js "/tmp") sampleResolve sampleDirectory failingLoader
         (js "./data") true oddWorld)
  = Returns (VNumber (Int 42)).
Proof.
  refine (proj1 (loadDocuments_hit (js "/tmp") sampleResolve sampleDirectory
                   failingLoader (js "./data") oddWorld (js "42") (VNumber (Int 42))
                   _ _)).
  - vm_compute. reflexivity.
  - vm_compute. reflexivity.
Defined.





(** X12: [loadDocuments] never removes a cache file and never touches the
    entries of other fingerprints: every file that was there is there
    afterwards, and every file but the entry of the current fingerprint
    reads as before. *)
Theorem loadDocuments_keeps_entries
    (tmpdir : jsstring) (resolve : jsstring -> jsstring -> jsstring)
    (directory : jsstring -> Directory) (loader : jsstring -> option (list Document))
    (path : jsstring) (cache : bool) (world : World) (file : jsstring) :
  let after := snd (loadDocuments tmpdir resolve directory loader path cache world) in
  (is_Some (tmpFiles world !! file) -> is_Some (tmpFiles after !! file))
  /\ (file <> cacheFile tmpdir resolve (fingerprint (directory path)) ->
      tmpFiles after !! file = tmpFiles world !! file).
Proof.
  intros after. unfold after.
  destruct (loadDocuments_files tmpdir resolve directory loader path cache world)
    as [Heq|(data & Heq)]; rewrite Heq.
  - split; auto.
  - split.
    + intros Hsome.
      destruct (decide (cacheFile tmpdir resolve (fingerprint (directory path)) = file))
        as [<-|Hne].
      * rewrite lookup_insert_eq. eauto.
      * now rewrite lookup_insert_ne.
    + intros Hne. now rewrite lookup_insert_ne by congruence.
Qed.

Lemma loadDocuments_keeps_entries_witness :
  is_Some (tmpFiles
             (snd (loadDocuments (js "/tmp") sampleResolve
                     (fun _ => [fileB]) sampleLoader (js "./data") true corruptWorld))
           !! sampleResolve (js "/tmp") (js "QG_98f40c6373f61998646d078caa06d812.bin")).
Proof.
  apply (proj1 (loadDocuments_keeps_entries (js "/tmp") sampleResolve
                  (fun _ => [fileB]) sampleLoader (js "./data") true corruptWorld
                  (sampleResolve (js "/tmp")
                     (js "QG_98f40c6373f61998646d078caa06d812.bin")))).
  vm_compute. eauto.
Defined.

(** ** The batch runner: the closing line *)

Section SummaryFacts.

Variable openai : jsstring -> option jsstring.
Variable questionsPerDocument : Number.




End SummaryFacts.



Lemma awaitAll_no_documents openai questionsPerDocument order run :
  awaitAll openai [] questionsPerDocument order run = (true, run).
Proof.
  induction order as [|i order IH]; [reflexivity|]. simpl.
  destruct i; exact IH.
Qed.

(** X14: with no documents the run succeeds at once, reports 0 questions
    for 0 documents, and never writes the output file. *)
Theorem execute_no_documents
    (openai : jsstring -> option jsstring) (questionsPerDocument : Number)
    (output : jsstring) (order : list nat) :
  execute openai [] questionsPerDocument output order
  = (Succeeded (js "Generated 0 questions for 0 documents in "
                ++ [dquote] ++ output ++ [dquote] ++ js "."),
     {| questions := []; outputFile := None |}).
Proof. unfold execute. rewrite awaitAll_no_documents. reflexivity. Qed.

(** ** The batch runner: the output file *)

Section IndentedFacts.

Local Arguments join : simpl never.





Lemma readsAs_skip v text rest :
  readsAs v text -> skipWhitespace (text ++ rest) = text ++ rest.
Proof.
  intros [Hopen _]. destruct text as [|c t]; [discriminate|].
  simpl in Hopen. now apply skipWhitespace_opens.
Qed.








End IndentedFacts.

Section ValidFacts.




End ValidFacts.


